(** * lib-http: a shallow embedding of [src/index.ts]

    The class [Http] wraps an axios instance.  This development embeds the
    parts of [src/index.ts] that carry behaviour of their own:

    - the error classification and listener fan-out of [onError],
    - the listener registry ([addErrorListener] and its unsubscribe closure),
    - [isOwnError],
    - [convertToFormData] over the host's [FormData],
    - [normalizeProgress] over IEEE-754 doubles,
    - [request]: defaulting of the configuration object, the transport call
      and the side observation [promise.catch(that.onError)].

    JavaScript values are modelled by an inductive type, objects with
    identity (configuration objects, promises) live in a store and are
    referred to by location, and [number] is binary64 as specified by the
    Standard Library's [SpecFloat]. *)

From Stdlib Require Import ZArith Lia SpecFloat.
From stdpp Require Import base option list strings gmap.

Local Open Scope string_scope.
Local Open Scope nat_scope.
Local Open Scope list_scope.

Set Warnings "-register-all".

(** ** JavaScript values *)

Module JS.

(** A JS [number] is a binary64 float. *)
Definition number : Type := spec_float.

Definition prec : Z := 53.
Definition emax : Z := 1024.

(** Functions that occur as values: the two protected methods [request]
    installs as hooks, the arrow function it builds around a progress
    callback, and functions of the caller, known by a name. *)
Inductive fn : Type :=
| Fn_urlEncode
| Fn_convertToFormData
| Fn_progress (onProgress : string)
| Fn_user (name : string).

(** The values the program handles.  [VObj] is a plain object given by
    its own enumerable properties in enumeration order; [VArr] is an
    array; [VFile] and [VFileList] are the host's [File] and [FileList];
    [VCancelToken] is an axios [CancelToken], known by a serial number. *)
Inductive value : Type :=
| VUndefined
| VNull
| VBool (b : bool)
| VNum (n : number)
| VStr (s : string)
| VObj (props : list (string * value))
| VArr (items : list value)
| VFile (name : string)
| VFileList (files : list value)
| VFun (f : fn)
| VCancelToken (id : nat).

(** What a [throw] carries: the engine's [TypeError] for a property read
    on [null] or [undefined], or a value thrown by user code. *)
Inductive exn : Type :=
| TypeError
| Thrown (v : value).

(** Completion of an evaluation: a result or an exception. *)
Inductive completion (A : Type) : Type :=
| Normal (a : A)
| Throw (e : exn).
Global Arguments Normal {A} a.
Global Arguments Throw {A} e.

Global Instance completion_ret : MRet completion := fun A a => Normal a.
Global Instance completion_bind : MBind completion := fun A B k c =>
  match c with
  | Normal a => k a
  | Throw e => Throw e
  end.

(** ToBoolean: [undefined], [null], [false], [+0], [-0], [NaN] and the
    empty string are falsy, everything else is truthy. *)
Definition ToBoolean (v : value) : bool :=
  match v with
  | VUndefined | VNull => false
  | VBool b => b
  | VNum (S754_zero _) | VNum S754_nan => false
  | VNum _ => true
  | VStr s => negb (String.eqb s "")
  | VObj _ | VArr _ | VFile _ | VFileList _ | VFun _ | VCancelToken _ => true
  end.

(** Lookup of an own property of a plain object. *)
Fixpoint own_property (props : list (string * value)) (name : string) : value :=
  match props with
  | [] => VUndefined
  | (k, v) :: rest => if String.eqb k name then v else own_property rest name
  end.

(** [v.name], for the names this program reads ([response], [request],
    [isAxiosError], [__CANCEL__]), none of which is defined on a built-in
    prototype: reading from [null] or [undefined] throws a [TypeError];
    a plain object yields its own property or [undefined]; every other
    value yields [undefined]. *)
Definition get (v : value) (name : string) : completion value :=
  match v with
  | VUndefined | VNull => Throw TypeError
  | VObj props => Normal (own_property props name)
  | _ => Normal VUndefined
  end.

Definition nullish (v : value) : bool :=
  match v with
  | VUndefined | VNull => true
  | _ => false
  end.

(** [Array.prototype.splice(start, 1)]: a negative [start] counts from the
    end, a [start] beyond the end removes nothing. *)
Definition splice1 {A} (start : Z) (l : list A) : list A :=
  let len := Z.of_nat (length l) in
  let from := if (start <? 0)%Z then Z.max (len + start) 0 else Z.min start len in
  delete (Z.to_nat from) l.

(** [Array.prototype.push(x)]: the array with [x] at its end, and the new
    length. *)
Definition push {A} (l : list A) (x : A) : list A * nat :=
  (l ++ [x], length (l ++ [x])).

End JS.

Import JS.

(** ** The four error kinds, [errorTypes] *)

Module errorTypes.

Inductive t : Type := response | request | cancel | unknown.

End errorTypes.

Definition TErrorType : Type := errorTypes.t.

(** ** Error listeners *)

Module Listener.

(** A listener is a function of the caller, known by a number. *)
Definition IErrorListener : Type := nat.

(** What the body of a listener may do to the [Http] instance that calls
    it: invoke an unsubscribe closure it holds (the closure is known by the
    [count] it captured), or register another listener. *)
Inductive effect : Type :=
| Unsubscribe (count : nat)
| Subscribe (listener : IErrorListener).

(** One invocation of a listener: its effects on the registry, in order,
    and the value it throws, if it throws. *)
Record behaviour : Type := Behaviour {
  effects : list effect;
  throws : option value;
}.

(** The record of one call [listener(error, errorType)]. *)
Record call : Type := Call {
  callee : IErrorListener;
  call_error : value;
  call_type : TErrorType;
}.

End Listener.

Import Listener.

(** ** The host's [FormData] *)

Module FormData.

(** The entry list.  An entry keeps the value that was passed to [append]
    or [set].  What the host stores for it is not modelled: a file is stored
    as it is, any other value as a string (5 as "5", a nested array
    ['x','y'] as "x,y"); that conversion is done entry by entry and changes
    neither names nor the number or order of entries.  So the second
    component of an entry here is the value before that conversion. *)
Abbreviation t := (list (string * value)).

Definition empty : t := [].

(** [append(name, value)]: a new entry at the end. *)
Definition append (name : string) (v : value) (formData : t) : t :=
  formData ++ [(name, v)].

Definition has (name : string) (formData : t) : bool :=
  existsb (fun entry => String.eqb entry.1 name) formData.

(** Replace the first entry called [name] and drop the others. *)
Fixpoint replace_first (name : string) (v : value) (formData : t) : t :=
  match formData with
  | [] => []
  | entry :: rest =>
    if String.eqb entry.1 name
    then (name, v) :: filter (fun e => e.1 ≠ name) rest
    else entry :: replace_first name v rest
  end.

(** [set(name, value)]: if entries called [name] exist, the first is
    replaced and the others are removed; otherwise the entry is appended. *)
Definition set (name : string) (v : value) (formData : t) : t :=
  if has name formData then replace_first name v formData
  else append name v formData.

(** [getAll(name)]: the values of the entries called [name], in order. *)
Definition getAll (name : string) (formData : t) : list value :=
  (filter (fun e => e.1 = name) formData).*2.

End FormData.

(** ** Promises *)

Module Promise.

Inductive outcome : Type :=
| Fulfil (v : value)
| Reject (reason : value).

Inductive state : Type :=
| Pending
| Settled (o : outcome).

(** The handlers this program passes to [catch]: the adapter's [onError],
    or a handler of the caller, known by a name. *)
Inductive handler : Type :=
| OnError
| Caller (name : string).

(** A reaction registered by [p.catch(handler)]: the handler, and the
    promise that [catch] returned. *)
Record reaction : Type := Reaction {
  onRejected : handler;
  derived : nat;
}.

Record t : Type := Promise {
  settled : state;
  reactions : list reaction;
}.

(** A reaction job in the microtask queue. *)
Record job : Type := Job {
  job_handler : handler;
  job_outcome : outcome;
  job_derived : nat;
}.

End Promise.

Import Promise.

(** ** The world around an [Http] instance *)

(** Objects with identity live here: configuration objects and promises are
    referred to by their location.  [submitted] is the transport's log: for
    each [client.request(config)], the location it was given, the content
    of that object at the time, and the promise it returned.  [observed]
    collects what the caller's handlers were called with. *)
Record World : Type := MkWorld {
  configs : gmap nat (gmap string value);
  promises : list Promise.t;
  jobs : list Promise.job;
  errorListeners : list IErrorListener;
  calls : list call;
  tokens : nat;
  submitted : list (nat * gmap string value * nat);
  observed : list (string * value);
}.

Module Heap.

Definition set_configs (f : gmap nat (gmap string value) -> gmap nat (gmap string value))
    (w : World) : World :=
  MkWorld (f (configs w)) (promises w) (jobs w) (errorListeners w) (calls w)
          (tokens w) (submitted w) (observed w).

Definition set_promises (f : list Promise.t -> list Promise.t) (w : World) : World :=
  MkWorld (configs w) (f (promises w)) (jobs w) (errorListeners w) (calls w)
          (tokens w) (submitted w) (observed w).

Definition set_jobs (f : list Promise.job -> list Promise.job) (w : World) : World :=
  MkWorld (configs w) (promises w) (f (jobs w)) (errorListeners w) (calls w)
          (tokens w) (submitted w) (observed w).

Definition set_listeners (ls : list IErrorListener) (made : list call) (w : World)
    : World :=
  MkWorld (configs w) (promises w) (jobs w) ls (calls w ++ made)
          (tokens w) (submitted w) (observed w).

Definition set_tokens (n : nat) (w : World) : World :=
  MkWorld (configs w) (promises w) (jobs w) (errorListeners w) (calls w)
          n (submitted w) (observed w).

Definition log_submitted (entry : nat * gmap string value * nat) (w : World) : World :=
  MkWorld (configs w) (promises w) (jobs w) (errorListeners w) (calls w)
          (tokens w) (submitted w ++ [entry]) (observed w).

Definition log_observed (entry : string * value) (w : World) : World :=
  MkWorld (configs w) (promises w) (jobs w) (errorListeners w) (calls w)
          (tokens w) (submitted w) (observed w ++ [entry]).

(** A new pending promise. *)
Definition new_promise (w : World) : nat * World :=
  (length (promises w), set_promises (fun ps => ps ++ [Promise Pending []]) w).

Definition state_of (p : nat) (w : World) : option Promise.state :=
  settled <$> promises w !! p.

(** Settling: a pending promise takes the outcome and its reactions become
    jobs, in the order they were registered; a settled promise stays as it
    is. *)
Definition settle (p : nat) (o : outcome) (w : World) : World :=
  match promises w !! p with
  | Some (Promise Pending rs) =>
    set_jobs (fun js => js ++ ((fun r => Job (onRejected r) o (derived r)) <$> rs))
      (set_promises (fun ps => <[p := Promise (Settled o) []]> ps) w)
  | _ => w
  end.

(** [p.catch(handler)]: a new promise is returned; the reaction waits on a
    pending [p] and is queued at once on a settled one. *)
Definition catch (p : nat) (h : handler) (w : World) : nat * World :=
  let '(d, w1) := new_promise w in
  match promises w1 !! p with
  | Some (Promise Pending rs) =>
    (d, set_promises (fun ps => <[p := Promise Pending (rs ++ [Reaction h d])]> ps) w1)
  | Some (Promise (Settled o) _) =>
    (d, set_jobs (fun js => js ++ [Job h o d]) w1)
  | None => (d, w1)
  end.

(** [config.name], [undefined] when absent. *)
Definition field (config : gmap string value) (name : string) : value :=
  default VUndefined (config !! name).

(** A statement [config.name = v] on the object at [config]. *)
Definition assign (config : nat) (name : string) (v : value) (w : World) : World :=
  set_configs (alter (fun content => <[name := v]> content) config) w.

(** An expression [config.name] on the object at [config]. *)
Definition read (config : nat) (name : string) (w : World) : value :=
  match configs w !! config with
  | Some content => field content name
  | None => VUndefined
  end.

End Heap.

Import Heap.

(** ** Numbers *)

Module Number.

(** The double nearest to an integer. *)
Definition of_Z (z : Z) : number := binary_normalize prec emax z 0 false.

(** [x / y] and [x * y] on doubles. *)
Definition div (x y : number) : number := SFdiv prec emax x y.
Definition mul (x y : number) : number := SFmul prec emax x y.

(** [Math.round(x)]: [x] itself when it is not finite or already integral;
    otherwise the integer nearest to [x], the larger one in case of a tie,
    keeping the sign of [x] when that integer is zero.  A finite double
    with a negative exponent is below 2^53 in magnitude, so the integer
    is computed exactly as [floor (x + 1/2)]. *)
Definition Math_round (x : number) : number :=
  match x with
  | S754_finite s m e =>
    if (0 <=? e)%Z then x
    else
      let n := ((2 * cond_Zopp s (Zpos m) + 2 ^ (- e)) / 2 ^ (- e + 1))%Z in
      if (n =? 0)%Z then S754_zero s else of_Z n
  | _ => x
  end.

(** The integer a double denotes, when it denotes one. *)
Definition to_integer (x : number) : option Z :=
  match x with
  | S754_zero _ => Some 0%Z
  | S754_finite s m e =>
    if (0 <=? e)%Z then Some (cond_Zopp s (Zpos m * 2 ^ e))%Z
    else if (Zpos m mod 2 ^ (- e) =? 0)%Z
         then Some (cond_Zopp s (Zpos m / 2 ^ (- e)))%Z
         else None
  | _ => None
  end.

Definition is_finite (x : number) : bool :=
  match x with
  | S754_zero _ | S754_finite _ _ _ => true
  | _ => false
  end.

(** [x <= y] and [x < y] on doubles. *)
Definition leb (x y : number) : bool := SFleb x y.
Definition ltb (x y : number) : bool := SFltb x y.

(** The exponent function of binary64. *)
Definition fexp64 (k : Z) : Z := fexp 53 1024 k.

(** Whether the double of a small integer denotes that integer. *)
Definition round_trips (k : nat) : bool :=
  match to_integer (of_Z (Z.of_nat k)) with
  | Some z => (z =? Z.of_nat k)%Z
  | None => false
  end.

End Number.

(** The fields of a [ProgressEvent] that [normalizeProgress] reads. *)
Record ProgressEvent : Type := {
  lengthComputable : bool;
  loaded : number;
  total : number;
}.

(** ** The transport *)

Module Axios.

(** Modelled from the spec: [axios.isCancel] belongs to the transport, which
    is not part of this repository.  The spec describes it as true exactly
    for a cancellation signal, which an error object denotes by carrying the
    cancellation marker; the marker is the property [__CANCEL__].  Theorems
    take the predicate as a parameter; this instance serves the closed
    examples. *)
Definition isCancel (v : value) : bool :=
  ToBoolean v &&
  match get v "__CANCEL__" with
  | Normal marker => ToBoolean marker
  | Throw _ => false
  end.

(** Modelled from the spec: [this.client.request(config)] is the transport's
    entry point, which is not part of this repository.  Per the spec it
    performs no caller-visible work at once and returns a pending result;
    here it allocates that promise and logs what it was given. *)
Definition request (config : nat) (w : World) : option (nat * World) :=
  content ← configs w !! config;
  let '(promise, w1) := new_promise w in
  Some (promise, log_submitted (config, content, promise) w1).

End Axios.

(** ** The class [Http] *)

Module Http.

Section Methods.

(** [axios.isCancel] *)
Variable axios_isCancel : value -> bool.

(** The bodies of the registered listeners. *)
Variable body : IErrorListener -> value -> TErrorType -> behaviour.

(** [isCancel(value)] *)
Definition isCancel (value : value) : bool := axios_isCancel value.

(** [isOwnError(value)]: [(value as IError).isAxiosError || this.isCancel(value)] *)
Definition isOwnError (value : value) : completion JS.value :=
  a ← get value "isAxiosError";
  if ToBoolean a then Normal a else Normal (VBool (isCancel value)).

(** The first half of [onError]: the [if]/[else if] chain that computes
    [errorType]. *)
Definition errorTypeOf (error : value) : completion TErrorType :=
  if isCancel error then Normal errorTypes.cancel
  else
    response ← get error "response";
    if ToBoolean response then Normal errorTypes.response
    else
      request ← get error "request";
      if ToBoolean request then Normal errorTypes.request
      else Normal errorTypes.unknown.

(** [addErrorListener(listener)]: the array after the [push], and the
    [count] that the returned closure captures. *)
Definition addErrorListener (listener : IErrorListener)
    (errorListeners : list IErrorListener) : list IErrorListener * nat :=
  push errorListeners listener.

(** The closure returned by [addErrorListener], called:
    [errorListeners.splice(count-1, 1)]. *)
Definition unsubscribe (count : nat) (errorListeners : list IErrorListener)
    : list IErrorListener :=
  splice1 (Z.of_nat count - 1) errorListeners.

Definition perform (eff : effect) (errorListeners : list IErrorListener)
    : list IErrorListener :=
  match eff with
  | Unsubscribe count => unsubscribe count errorListeners
  | Subscribe listener => fst (addErrorListener listener errorListeners)
  end.

Definition perform_all (effs : list effect) (errorListeners : list IErrorListener)
    : list IErrorListener :=
  foldl (fun ls eff => perform eff ls) errorListeners effs.

(** The second half of [onError]: [for (const listener of this.errorListeners)].
    The array iterator reads the live array at index [i] at every step, so a
    listener that changes the array changes what the loop visits.  The loop
    need not end (a listener may keep subscribing), hence the fuel; [None]
    means the fuel ran out.  The result is the array after the loop, the
    calls made, and how the loop completed. *)
Fixpoint notify (fuel i : nat) (errorListeners : list IErrorListener)
    (error : value) (errorType : TErrorType) (made : list call)
    : option (list IErrorListener * list call * completion ()) :=
  match fuel with
  | O => None
  | S fuel' =>
    match errorListeners !! i with
    | None => Some (errorListeners, made, Normal ())
    | Some listener =>
      let b := body listener error errorType in
      let errorListeners' := perform_all (effects b) errorListeners in
      let made' := made ++ [Call listener error errorType] in
      match throws b with
      | Some thrown => Some (errorListeners', made', Throw (Thrown thrown))
      | None => notify fuel' (S i) errorListeners' error errorType made'
      end
    end
  end.

(** [onError(error)] *)
Definition onError (fuel : nat) (errorListeners : list IErrorListener)
    (error : value) : option (list IErrorListener * list call * completion ()) :=
  match errorTypeOf error with
  | Throw e => Some (errorListeners, [], Throw e)
  | Normal errorType => notify fuel 0 errorListeners error errorType []
  end.

(** [value instanceof FileList || Array.isArray(value)], with the elements. *)
Definition as_list (v : value) : option (list value) :=
  match v with
  | VFileList files => Some files
  | VArr items => Some items
  | _ => None
  end.

(** One round of [for (const name in data)]. *)
Definition add_field (formData : FormData.t) (field : string * value) : FormData.t :=
  let '(name, v) := field in
  match as_list v with
  | Some items =>
    foldl (fun fd item => FormData.append (name +:+ "[]") item fd) formData items
  | None => FormData.set name v formData
  end.

(** [convertToFormData(data, headers)], for a plain object [data] given by
    its enumerable properties in [for ... in] order. *)
Definition convertToFormData (data : list (string * value)) (headers : value)
    : FormData.t :=
  foldl add_field FormData.empty data.

(** [normalizeProgress(e, cb)]: the arguments of the calls made to [cb],
    in order. *)
Definition normalizeProgress (e : ProgressEvent) : list number :=
  if lengthComputable e
  then [Number.Math_round
          (Number.mul (Number.div (loaded e) (total e)) (Number.of_Z 100))]
  else [].

(** The statements of [request] that write to [config], in source order. *)
Definition install_hooks (config : nat) (onProgress : option string) (w : World)
    : World :=
  (* config.cancelToken = new axios.CancelToken(cancel => cancelFn = cancel) *)
  let cancelFn := tokens w in
  let w := set_tokens (S (tokens w)) w in
  let w := assign config "cancelToken" (VCancelToken cancelFn) w in
  (* if(!config.paramsSerializer) *)
  let w :=
    if ToBoolean (read config "paramsSerializer" w) then w
    else assign config "paramsSerializer" (VFun Fn_urlEncode) w in
  (* if(!config.transformRequest) *)
  let w :=
    if ToBoolean (read config "transformRequest" w) then w
    else assign config "transformRequest" (VFun Fn_convertToFormData) w in
  (* if(onProgress) *)
  match onProgress with
  | Some callback =>
    assign config "onDownloadProgress" (VFun (Fn_progress callback))
      (assign config "onUploadProgress" (VFun (Fn_progress callback)) w)
  | None => w
  end.

(** [request(config, onProgress)].  The result is the pair returned to the
    caller (the promise and the cancel function, known by the token it
    cancels) and the world after the call; [None] when [config] refers to
    no object. *)
Definition request (config : nat) (onProgress : option string) (w : World)
    : option (nat * nat * World) :=
  _ ← configs w !! config;
  let cancelFn := tokens w in
  let w := install_hooks config onProgress w in
  (* const promise = that.client.request<T>(config) *)
  '(promise, w) ← Axios.request config w;
  (* promise.catch(that.onError) *)
  let '(_, w) := catch promise OnError w in
  Some (promise, cancelFn, w).

(** The value a thrown exception rejects a promise with. *)
Definition thrown_value (e : exn) : value :=
  match e with
  | TypeError => VObj [("name", VStr "TypeError")]
  | Thrown v => v
  end.

(** One reaction job.  A fulfilment passes through a [catch]; a rejection
    calls the handler, whose completion settles the derived promise.
    [None] when the queue is empty or [onError] runs out of fuel. *)
Definition run_job (fuel : nat) (w : World) : option World :=
  match jobs w with
  | [] => None
  | Job h o d :: rest =>
    let w := set_jobs (fun _ => rest) w in
    match o with
    | Fulfil v => Some (settle d (Fulfil v) w)
    | Reject reason =>
      match h with
      | OnError =>
        match onError fuel (errorListeners w) reason with
        | None => None
        | Some (ls, made, Normal _) =>
          Some (settle d (Fulfil VUndefined) (set_listeners ls made w))
        | Some (ls, made, Throw e) =>
          Some (settle d (Reject (thrown_value e)) (set_listeners ls made w))
        end
      | Caller name =>
        Some (settle d (Fulfil VUndefined) (log_observed (name, reason) w))
      end
    end
  end.

(** Whatever may happen to the world: calls of the adapter, the caller
    attaching handlers, promises being settled, jobs being run. *)
Inductive step : World -> World -> Prop :=
| step_request config onProgress w promise cancelFn w' :
    request config onProgress w = Some (promise, cancelFn, w') -> step w w'
| step_catch p h w :
    step w (catch p h w).2
| step_settle p o w :
    step w (settle p o w)
| step_job fuel w w' :
    run_job fuel w = Some w' -> step w w'
| step_listeners eff w :
    step w (set_listeners (perform eff (errorListeners w)) [] w).

End Methods.

End Http.

(** ** The classification as the specification words it *)

Module Spec.

(** An error "carries" an attribute when reading it yields a truthy value:
    axios sets [response] and [request] on every error it creates and
    leaves [undefined] in the one that does not apply.  [null] and
    [undefined] carry nothing. *)
Definition carries (error : value) (name : string) : bool :=
  match get error name with
  | Normal v => ToBoolean v
  | Throw _ => false
  end.

(** First match wins: cancellation, then [response], then [request],
    otherwise [unknown]. *)
Definition classified (isCancel : value -> bool) (error : value) : TErrorType :=
  if isCancel error then errorTypes.cancel
  else if carries error "response" then errorTypes.response
  else if carries error "request" then errorTypes.request
  else errorTypes.unknown.

End Spec.

Module FormSpec.

(** The entry name a field of the payload is written under: [name[]] for a
    list-valued field, [name] otherwise. *)
Definition written_name (field : string * value) : string :=
  match Http.as_list field.2 with
  | Some _ => field.1 +:+ "[]"
  | None => field.1
  end.

(** The entry values a field gives rise to. *)
Definition written_values (field : string * value) : list value :=
  match Http.as_list field.2 with
  | Some items => items
  | None => [field.2]
  end.

End FormSpec.

Module RequestSpec.

(** The content of a configuration object after the writes of [request]:
    [cancelFn] is the token created for the call. *)
Definition hooked (content : gmap string value) (cancelFn : nat)
    (onProgress : option string) : gmap string value :=
  let c := <["cancelToken" := VCancelToken cancelFn]> content in
  let c :=
    if ToBoolean (field c "paramsSerializer") then c
    else <["paramsSerializer" := VFun Fn_urlEncode]> c in
  let c :=
    if ToBoolean (field c "transformRequest") then c
    else <["transformRequest" := VFun Fn_convertToFormData]> c in
  match onProgress with
  | Some callback =>
    <["onDownloadProgress" := VFun (Fn_progress callback)]>
      (<["onUploadProgress" := VFun (Fn_progress callback)]> c)
  | None => c
  end.

(** The fields [request] may write. *)
Definition hook_names : list string :=
  ["cancelToken"; "paramsSerializer"; "transformRequest";
   "onDownloadProgress"; "onUploadProgress"].

End RequestSpec.

(** ** Vocabulary of the statements *)

(** A listener is quiet when its body neither throws nor touches the
    registry. *)
Definition quiet (body : IErrorListener -> value -> TErrorType -> behaviour)
    (listener : IErrorListener) : Prop :=
  forall error errorType, body listener error errorType = Behaviour [] None.

(** No body subscribes [L]. *)
Definition never_subscribes (body : IErrorListener -> value -> TErrorType -> behaviour)
    (L : IErrorListener) : Prop :=
  forall listener error errorType,
    Subscribe L ∉ effects (body listener error errorType).

(** The unsubscribe closures called after a registration are "in order"
    when each of them captured a later position than that registration. *)
Definition later_than (count : nat) (eff : effect) : Prop :=
  match eff with
  | Unsubscribe count' => count < count'
  | Subscribe _ => True
  end.

(** ** Sample data *)

(** The rejection of a request answered with status 404. *)
Definition error_404 : value :=
  VObj [("isAxiosError", VBool true);
        ("request", VObj []);
        ("response", VObj [("status", VNum (S754_finite false 404 0))])].

(** Listeners that only look. *)
Definition silent : IErrorListener -> value -> TErrorType -> behaviour :=
  fun _ _ _ => Behaviour [] None.

(** Listener 1 throws whatever it is called with. *)
Definition first_throws : IErrorListener -> value -> TErrorType -> behaviour :=
  fun listener _ _ =>
    if decide (listener = 1) then Behaviour [] (Some (VStr "boom"))
    else Behaviour [] None.

(** Listener 1 unsubscribes itself when called (it was registered first, so
    its closure captured [count = 1]). *)
Definition first_unsubscribes : IErrorListener -> value -> TErrorType -> behaviour :=
  fun listener _ _ =>
    if decide (listener = 1) then Behaviour [Unsubscribe 1] None
    else Behaviour [] None.

(** A payload with a scalar, an array and a file list. *)
Definition upload_payload : list (string * value) :=
  [("title", VStr "report");
   ("tags", VArr [VStr "a"; VStr "b"]);
   ("files", VFileList [VFile "p.png"; VFile "q.png"; VFile "r.png"])].

(** Configuration objects, and a world holding one at location 0, with two
    registered listeners. *)
Definition bare_config : gmap string value :=
  {[ "url" := VStr "https://httpbin.org/status/404" ]}.

Definition custom_config : gmap string value :=
  <[ "paramsSerializer" := VFun (Fn_user "qs") ]>
    (<[ "transformRequest" := VArr [VFun (Fn_user "json")] ]> bare_config).

Definition world_with (content : gmap string value) : World :=
  MkWorld {[ 0 := content ]} [] [] [1; 2] [] 0 [] [].

(** Progress events. *)
Definition progress_29_of_200 : ProgressEvent :=
  {| lengthComputable := true; loaded := Number.of_Z 29; total := Number.of_Z 200 |}.

Definition progress_unknown_total : ProgressEvent :=
  {| lengthComputable := false; loaded := Number.of_Z 29; total := Number.of_Z 0 |}.

Definition progress_3_of_2 : ProgressEvent :=
  {| lengthComputable := true; loaded := Number.of_Z 3; total := Number.of_Z 2 |}.

Definition progress_0_of_0 : ProgressEvent :=
  {| lengthComputable := true; loaded := Number.of_Z 0; total := Number.of_Z 0 |}.


(** * Further vocabulary *)

(** ** More vocabulary: registering and unsubscribing in bulk *)

(** [addErrorListener] for each listener in turn: the array afterwards and
    the [count] each returned closure captured, in registration order. *)
Definition register_all (listeners : list IErrorListener)
    (errorListeners : list IErrorListener) : list IErrorListener * list nat :=
  foldl (fun '(ls, counts) listener =>
           let '(ls', count) := Http.addErrorListener listener ls in
           (ls', counts ++ [count]))
        (errorListeners, []) listeners.

(** The closures with the given captured counts, called one after the
    other. *)
Definition unsubscribe_all (counts : list nat)
    (errorListeners : list IErrorListener) : list IErrorListener :=
  foldl (fun ls count => Http.unsubscribe count ls) errorListeners counts.

(** No body subscribes anybody. *)
Definition subscribes_nobody
    (body : IErrorListener -> value -> TErrorType -> behaviour) : Prop :=
  forall listener error errorType other,
    Subscribe other ∉ effects (body listener error errorType).

(** Listener 1 registers listener 9 whenever it is called. *)
Definition first_subscribes : IErrorListener -> value -> TErrorType -> behaviour :=
  fun listener _ _ =>
    if decide (listener = 1) then Behaviour [Subscribe 9] None
    else Behaviour [] None.

(** Listener 1 registers itself again whenever it is called. *)
Definition first_resubscribes : IErrorListener -> value -> TErrorType -> behaviour :=
  fun listener _ _ =>
    if decide (listener = 1) then Behaviour [Subscribe 1] None
    else Behaviour [] None.

(** ** More vocabulary: form entries *)

(** The entries a field of the payload gives rise to, in order. *)
Definition written_entries (field : string * value) : list (string * value) :=
  (fun v => (FormSpec.written_name field, v)) <$> FormSpec.written_values field.

(** A finished transfer. *)
Definition progress_7_of_7 : ProgressEvent :=
  {| lengthComputable := true; loaded := Number.of_Z 7; total := Number.of_Z 7 |}.

(** A configuration object whose caller set a progress handler of their
    own. *)
Definition progress_config : gmap string value :=
  <[ "onUploadProgress" := VFun (Fn_user "spinner") ]> bare_config.

(** * Properties *)

(** ** Array helpers *)

Lemma splice1_delete {A} (i : nat) (l : list A) :
  splice1 (Z.of_nat i) l = delete i l.
Proof.
  unfold splice1.
  destruct (Z.ltb_spec (Z.of_nat i) 0) as [Hneg|_]; [lia|].
  destruct (decide (i ≤ length l)) as [Hle|Hgt].
  - rewrite Z.min_l by lia. by rewrite Nat2Z.id.
  - rewrite Z.min_r by lia. rewrite Nat2Z.id.
    rewrite !delete_take_drop, !drop_ge by lia.
    by rewrite !take_ge by lia.
Qed.

Lemma unsubscribe_delete (k : nat) (ls : list IErrorListener) :
  Http.unsubscribe (S k) ls = delete k ls.
Proof.
  unfold Http.unsubscribe.
  replace (Z.of_nat (S k) - 1)%Z with (Z.of_nat k) by lia.
  apply splice1_delete.
Qed.

Lemma addErrorListener_eq (L : IErrorListener) (ls : list IErrorListener) :
  Http.addErrorListener L ls = (ls ++ [L], S (length ls)).
Proof.
  unfold Http.addErrorListener, push. f_equal.
  rewrite length_app. simpl. lia.
Qed.

(** ** Classification *)

Section Classification.

Variable isCancel : value -> bool.

Lemma errorTypeOf_cancel error :
  isCancel error = true ->
  Http.errorTypeOf isCancel error = Normal errorTypes.cancel.
Proof. intros H. unfold Http.errorTypeOf, Http.isCancel. by rewrite H. Qed.

Lemma errorTypeOf_defined error :
  nullish error = false ->
  Http.errorTypeOf isCancel error = Normal (Spec.classified isCancel error).
Proof.
  intros Hnn.
  unfold Http.errorTypeOf, Spec.classified, Spec.carries, Http.isCancel.
  destruct (isCancel error); [done|].
  destruct error; try discriminate Hnn; simpl;
    repeat match goal with |- context [if ?b then _ else _] => destruct b end;
    reflexivity.
Qed.

Lemma errorTypeOf_nullish error :
  nullish error = true -> isCancel error = false ->
  Http.errorTypeOf isCancel error = Throw TypeError.
Proof.
  intros Hn Hc. unfold Http.errorTypeOf, Http.isCancel. rewrite Hc.
  by destruct error.
Qed.

End Classification.

(** C1, amended.  For every error value that is a cancellation or is not
    [null]/[undefined], [onError] computes the kind by first match:
    cancellation gives [cancel]; otherwise a truthy [response] gives
    [response]; otherwise a truthy [request] gives [request]; otherwise
    [unknown]. *)
Theorem errorTypeOf_first_match (isCancel : value -> bool) (error : value) :
  isCancel error = true ∨ nullish error = false ->
  Http.errorTypeOf isCancel error = Normal (Spec.classified isCancel error).
Proof.
  intros [Hc|Hnn].
  - rewrite errorTypeOf_cancel by done.
    unfold Spec.classified. by rewrite Hc.
  - by apply errorTypeOf_defined.
Qed.

Lemma errorTypeOf_first_match_witness :
  (Axios.isCancel error_404 = true ∨ nullish error_404 = false) ∧
  Http.errorTypeOf Axios.isCancel error_404 = Normal errorTypes.response.
Proof.
  split.
  - right. reflexivity.
  - apply (errorTypeOf_first_match Axios.isCancel error_404).
    right. reflexivity.
Defined.

(** C1 as stated fails at [null]: it is no cancellation and carries neither
    attribute, so the stated precedence gives [unknown], but the code throws
    while reading [error.response]. *)
Lemma errorTypeOf_null_not_unknown :
  Spec.classified Axios.isCancel VNull = errorTypes.unknown ∧
  Http.errorTypeOf Axios.isCancel VNull = Throw TypeError ∧
  Http.errorTypeOf Axios.isCancel VNull
    ≠ Normal (Spec.classified Axios.isCancel VNull).
Proof. repeat split; try reflexivity. discriminate. Qed.

(** The two particular cases of the precedence. *)
Example cancel_beats_response :
  let error := VObj [("__CANCEL__", VBool true); ("response", VObj [])] in
  Http.errorTypeOf Axios.isCancel error = Normal errorTypes.cancel.
Proof. reflexivity. Qed.

Example response_beats_request :
  let error := VObj [("request", VObj []); ("response", VObj [])] in
  Http.errorTypeOf Axios.isCancel error = Normal errorTypes.response.
Proof. reflexivity. Qed.

Example request_only :
  let error := VObj [("request", VObj []); ("response", VUndefined)] in
  Http.errorTypeOf Axios.isCancel error = Normal errorTypes.request.
Proof. reflexivity. Qed.

(** C10.  [isOwnError] throws a [TypeError] on [null] and [undefined]; and
    when such a value is no cancellation, [onError] throws a [TypeError]
    with no listener called and the registry untouched. *)
Theorem nullish_value_throws (isCancel : value -> bool)
    (body : IErrorListener -> value -> TErrorType -> behaviour)
    (fuel : nat) (errorListeners : list IErrorListener) (v : value) :
  nullish v = true ->
  Http.isOwnError isCancel v = Throw TypeError ∧
  (isCancel v = false ->
   Http.onError isCancel body fuel errorListeners v
     = Some (errorListeners, [], Throw TypeError)).
Proof.
  intros Hn. split.
  - by destruct v.
  - intros Hc. unfold Http.onError.
    by rewrite errorTypeOf_nullish.
Qed.

Lemma nullish_value_throws_witness :
  nullish VNull = true ∧
  Http.isOwnError Axios.isCancel VNull = Throw TypeError ∧
  Http.onError Axios.isCancel silent 5 [1; 2] VNull = Some ([1; 2], [], Throw TypeError).
Proof.
  split; [reflexivity|].
  destruct (nullish_value_throws Axios.isCancel silent 5 [1; 2] VNull eq_refl)
    as [Hown Herr].
  split; [exact Hown|]. apply Herr. reflexivity.
Defined.

(** ** Listener fan-out *)

Section FanOut.

Variable isCancel : value -> bool.
Variable body : IErrorListener -> value -> TErrorType -> behaviour.

Lemma notify_quiet fuel i ls error errorType made :
  Forall (quiet body) ls ->
  length ls - i < fuel ->
  Http.notify body fuel i ls error errorType made
    = Some (ls, made ++ ((fun l => Call l error errorType) <$> drop i ls), Normal ()).
Proof.
  intros Hq. revert i made.
  induction fuel as [|fuel IH]; intros i made Hfuel; [lia|].
  simpl. destruct (ls !! i) as [listener|] eqn:Hi.
  - assert (Hl : quiet body listener).
    { eapply Forall_lookup_1; eauto. }
    rewrite (Hl error errorType). simpl.
    pose proof (lookup_lt_Some _ _ _ Hi) as Hlt.
    rewrite IH by lia.
    rewrite (drop_S _ _ _ Hi). simpl.
    by rewrite <- app_assoc.
  - apply lookup_ge_None_1 in Hi.
    rewrite drop_ge by lia. simpl. by rewrite app_nil_r.
Qed.

Lemma onError_quiet fuel ls error errorType :
  Http.errorTypeOf isCancel error = Normal errorType ->
  Forall (quiet body) ls ->
  length ls < fuel ->
  Http.onError isCancel body fuel ls error
    = Some (ls, (fun l => Call l error errorType) <$> ls, Normal ()).
Proof.
  intros Hty Hq Hfuel. unfold Http.onError. rewrite Hty.
  rewrite notify_quiet by (done || lia).
  by rewrite drop_0.
Qed.

Lemma perform_not_in L eff ls :
  eff ≠ Subscribe L -> L ∉ ls -> L ∉ Http.perform eff ls.
Proof.
  intros Hne Hnot. destruct eff as [count|listener]; simpl.
  - unfold Http.unsubscribe, splice1.
    intros Hin. by apply list_elem_of_delete_inv in Hin.
  - rewrite elem_of_app, list_elem_of_singleton.
    intros [?| ->]; [done|]. by apply Hne.
Qed.

Lemma perform_all_not_in L effs ls :
  Subscribe L ∉ effs -> L ∉ ls -> L ∉ Http.perform_all effs ls.
Proof.
  unfold Http.perform_all. revert ls.
  induction effs as [|eff effs IH]; intros ls Hne Hnot; simpl; [done|].
  apply IH.
  - intros Hin. apply Hne. by right.
  - apply perform_not_in; [|done].
    intros ->. apply Hne. by left.
Qed.

Lemma notify_not_called L fuel i ls error errorType made ls' made' c :
  never_subscribes body L ->
  L ∉ ls -> L ∉ callee <$> made ->
  Http.notify body fuel i ls error errorType made = Some (ls', made', c) ->
  L ∉ callee <$> made'.
Proof.
  intros Hns. revert i ls made.
  induction fuel as [|fuel IH]; intros i ls made Hls Hmade Hrun; [done|].
  simpl in Hrun. destruct (ls !! i) as [listener|] eqn:Hi.
  - assert (Hne : L ≠ listener).
    { intros ->. apply Hls. eapply list_elem_of_lookup_2; eauto. }
    assert (Hmade1 : L ∉ callee <$> (made ++ [Call listener error errorType])).
    { rewrite fmap_app, elem_of_app. simpl.
      rewrite list_elem_of_singleton. tauto. }
    destruct (throws (body listener error errorType)).
    + by inversion Hrun; subst.
    + eapply IH; [| |exact Hrun]; [|done].
      apply perform_all_not_in; [apply Hns|done].
  - by inversion Hrun; subst.
Qed.

Lemma onError_not_called L fuel ls error ls' made c :
  never_subscribes body L ->
  L ∉ ls ->
  Http.onError isCancel body fuel ls error = Some (ls', made, c) ->
  L ∉ callee <$> made.
Proof.
  intros Hns Hls. unfold Http.onError.
  destruct (Http.errorTypeOf isCancel error) as [errorType|e].
  - intros Hrun. eapply notify_not_called; eauto. simpl. apply not_elem_of_nil.
  - intros Hrun. inversion Hrun; subst. simpl. apply not_elem_of_nil.
Qed.

End FanOut.

(** C2, amended.  When the classification does not throw and no registered
    listener throws or changes the registry, [onError] calls every
    registered listener exactly once, in registration order, each with the
    same error value and the same kind, and then returns normally. *)
Theorem onError_calls_each_listener_in_order
    (isCancel : value -> bool)
    (body : IErrorListener -> value -> TErrorType -> behaviour)
    (fuel : nat) (errorListeners : list IErrorListener)
    (error : value) (errorType : TErrorType) :
  Http.errorTypeOf isCancel error = Normal errorType ->
  Forall (quiet body) errorListeners ->
  length errorListeners < fuel ->
  Http.onError isCancel body fuel errorListeners error
    = Some (errorListeners,
            (fun listener => Call listener error errorType) <$> errorListeners,
            Normal ()).
Proof. apply onError_quiet. Qed.

Lemma onError_calls_each_listener_in_order_witness :
  Http.errorTypeOf Axios.isCancel error_404 = Normal errorTypes.response ∧
  Forall (quiet silent) [1; 2; 3] ∧
  length [1; 2; 3] < 4 ∧
  Http.onError Axios.isCancel silent 4 [1; 2; 3] error_404
    = Some ([1; 2; 3],
            [Call 1 error_404 errorTypes.response;
             Call 2 error_404 errorTypes.response;
             Call 3 error_404 errorTypes.response],
            Normal ()).
Proof.
  assert (Hq : Forall (quiet silent) [1; 2; 3]).
  { repeat constructor. }
  split; [reflexivity|]. split; [exact Hq|]. split; [simpl; lia|].
  apply (onError_calls_each_listener_in_order
           Axios.isCancel silent 4 [1; 2; 3] error_404 errorTypes.response);
    [reflexivity|exact Hq|simpl; lia].
Defined.

(** C2 as stated fails when a listener throws: the loop is left at once and
    the listeners after it are not called. *)
Lemma onError_throwing_listener_stops_fan_out :
  Http.onError Axios.isCancel first_throws 9 [1; 2; 3] error_404
    = Some ([1; 2; 3],
            [Call 1 error_404 errorTypes.response],
            Throw (Thrown (VStr "boom"))) ∧
  Http.onError Axios.isCancel first_throws 9 [1; 2; 3] error_404
    ≠ Some ([1; 2; 3],
            (fun listener => Call listener error_404 errorTypes.response) <$> [1; 2; 3],
            Normal ()).
Proof. split; [reflexivity|]. vm_compute. discriminate. Qed.

(** A listener that unsubscribes itself during the fan-out shifts the
    array under the iterator: listener 2 is skipped. *)
Example onError_self_unsubscribe_skips_next :
  Http.onError Axios.isCancel first_unsubscribes 9 [1; 2; 3] error_404
    = Some ([2; 3],
            [Call 1 error_404 errorTypes.response;
             Call 3 error_404 errorTypes.response],
            Normal ()).
Proof. reflexivity. Qed.

(** ** Unsubscribing *)

Lemma delete_app_add {A} (l1 l2 : list A) (m : nat) :
  delete (length l1 + m) (l1 ++ l2) = l1 ++ delete m l2.
Proof. induction l1 as [|x l1 IH]; simpl; [done|]. by rewrite IH. Qed.

Lemma perform_all_later before L effs rest :
  Forall (later_than (S (length before))) effs ->
  exists rest',
    Http.perform_all effs (before ++ L :: rest) = before ++ L :: rest'.
Proof.
  unfold Http.perform_all. revert rest.
  induction effs as [|eff effs IH]; intros rest Hall; simpl.
  - by exists rest.
  - apply Forall_cons in Hall as [Hlater Hall].
    destruct eff as [count|listener]; simpl in *.
    + destruct count as [|k]; [lia|].
      rewrite unsubscribe_delete.
      replace k with (length before + S (k - S (length before))) by lia.
      rewrite delete_app_add. simpl.
      by apply IH.
    + rewrite <- app_assoc. simpl. by apply IH.
Qed.

(** C6, amended.  The closure returned by [addErrorListener(L)] removes the
    entry at the position captured at registration, whatever the registry
    holds by then.  When every unsubscribe closure called in between captured
    a later position, that entry is still [L]'s: the call removes exactly it.
    If moreover the registry then holds no other entry of [L] and no listener
    subscribes [L] again while being notified, a later [onError] does not
    call [L]. *)
Theorem unsubscribe_removes_own_entry
    (body : IErrorListener -> value -> TErrorType -> behaviour)
    (before : list IErrorListener) (L : IErrorListener)
    (between : list effect)
    (registered : list IErrorListener) (count : nat) :
  Http.addErrorListener L before = (registered, count) ->
  Forall (later_than count) between ->
  (forall ls, Http.unsubscribe count ls = delete (length before) ls) ∧
  exists rest,
    Http.perform_all between registered = before ++ L :: rest ∧
    Http.unsubscribe count (Http.perform_all between registered) = before ++ rest ∧
    (L ∉ before ++ rest ->
     never_subscribes body L ->
     forall isCancel fuel error ls' made c,
       Http.onError isCancel body fuel (before ++ rest) error = Some (ls', made, c) ->
       L ∉ callee <$> made).
Proof.
  rewrite addErrorListener_eq. intros [= <- <-] Hbetween.
  split; [intros ls; apply unsubscribe_delete|].
  destruct (perform_all_later before L between [] Hbetween) as [rest Hrest].
  exists rest. rewrite Hrest, unsubscribe_delete.
  split; [done|]. split.
  - by rewrite delete_middle.
  - intros Hnot Hns isCancel fuel error ls' made c Hrun.
    eapply onError_not_called; eauto.
Qed.

Lemma unsubscribe_removes_own_entry_witness :
  Http.addErrorListener 3 [1; 2] = ([1; 2; 3], 3) ∧
  Forall (later_than 3) [Subscribe 4; Unsubscribe 4; Subscribe 5] ∧
  Http.unsubscribe 3
    (Http.perform_all [Subscribe 4; Unsubscribe 4; Subscribe 5] [1; 2; 3])
    = [1; 2; 5].
Proof.
  assert (Hlater : Forall (later_than 3) [Subscribe 4; Unsubscribe 4; Subscribe 5]).
  { repeat constructor. }
  split; [reflexivity|]. split; [exact Hlater|].
  destruct (unsubscribe_removes_own_entry silent [1; 2] 3
              [Subscribe 4; Unsubscribe 4; Subscribe 5] [1; 2; 3] 3
              eq_refl Hlater) as [Hpos _].
  rewrite Hpos. reflexivity.
Defined.

(** C6 as stated fails when [L] is registered twice: [addErrorListener]
    does not look for duplicates, the closure of the first registration
    removes one entry, no removal happened out of order, and the next
    failure still calls [L] through the other entry. *)
Lemma unsubscribe_leaves_other_entry_of_same_listener :
  Http.addErrorListener 7 [5] = ([5; 7], 2) ∧
  Forall (later_than 2) [Subscribe 7] ∧
  Http.perform_all [Subscribe 7] [5; 7] = [5; 7; 7] ∧
  Http.unsubscribe 2 (Http.perform_all [Subscribe 7] [5; 7]) = [5; 7] ∧
  Http.onError Axios.isCancel silent 9 [5; 7] error_404
    = Some ([5; 7],
            [Call 5 error_404 errorTypes.response;
             Call 7 error_404 errorTypes.response],
            Normal ()) ∧
  ¬ (7 ∉ callee <$> [Call 5 error_404 errorTypes.response;
                     Call 7 error_404 errorTypes.response]).
Proof.
  split; [reflexivity|]. split; [repeat constructor|].
  split; [reflexivity|]. split; [reflexivity|]. split; [reflexivity|].
  intros Hnot. apply Hnot. simpl. set_solver.
Qed.

(** Without the order condition the closure removes somebody else: after
    listener 1 is unsubscribed, listener 2's closure removes listener 3. *)
Example unsubscribe_out_of_order_removes_other :
  Http.unsubscribe 2 (Http.unsubscribe 1 [1; 2; 3]) = [2].
Proof. reflexivity. Qed.

(** C9.  The closure is not idempotent: every call deletes at the captured
    position.  Called twice on a registry where [L] is followed by [next],
    it removes [L] and then [next], whose own closure was never called; only
    when nothing occupies the position is the second call without effect. *)
Theorem unsubscribe_twice_removes_next
    (before after : list IErrorListener) (L next : IErrorListener)
    (registered : list IErrorListener) (count : nat) :
  Http.addErrorListener L before = (registered, count) ->
  (forall ls, Http.unsubscribe count (Http.unsubscribe count ls)
              = delete (count - 1) (delete (count - 1) ls)) ∧
  Http.unsubscribe count (registered ++ next :: after) = before ++ next :: after ∧
  Http.unsubscribe count (Http.unsubscribe count (registered ++ next :: after))
    = before ++ after ∧
  Http.unsubscribe count (Http.unsubscribe count registered) = before.
Proof.
  rewrite addErrorListener_eq. intros [= <- <-].
  rewrite !unsubscribe_delete.
  replace (S (length before) - 1) with (length before) by lia.
  split; [intros ls; by rewrite !unsubscribe_delete|].
  rewrite <- app_assoc. simpl.
  rewrite !delete_middle.
  split; [done|]. split; [done|].
  rewrite app_nil_r, delete_take_drop.
  rewrite take_ge, drop_ge by lia. by rewrite app_nil_r.
Qed.

Lemma unsubscribe_twice_removes_next_witness :
  Http.addErrorListener 7 [5; 6] = ([5; 6; 7], 3) ∧
  Http.unsubscribe 3 (Http.unsubscribe 3 ([5; 6; 7] ++ 8 :: [9])) = [5; 6; 9] ∧
  Http.unsubscribe 3 (Http.unsubscribe 3 [5; 6; 7]) = [5; 6].
Proof.
  split; [reflexivity|].
  destruct (unsubscribe_twice_removes_next [5; 6] [9] 7 8 [5; 6; 7] 3 eq_refl)
    as (_ & _ & Htwice & Hlast).
  split; [exact Htwice|exact Hlast].
Defined.

(** ** Form bodies *)

Lemma string_app_length (s t : string) :
  String.length (s +:+ t) = String.length s + String.length t.
Proof. induction s as [|a s IH]; simpl; [done|]. by rewrite IH. Qed.

Lemma string_app_inj_r (s1 s2 t : string) :
  s1 +:+ t = s2 +:+ t -> s1 = s2.
Proof.
  revert s2. induction s1 as [|a s1 IH]; intros [|b s2] Heq; simpl in *.
  - done.
  - apply (f_equal String.length) in Heq.
    rewrite ?string_app_length in Heq. simpl in Heq.
    rewrite ?string_app_length in Heq. lia.
  - apply (f_equal String.length) in Heq.
    rewrite ?string_app_length in Heq. simpl in Heq.
    rewrite ?string_app_length in Heq. lia.
  - injection Heq as -> Heq. f_equal. by apply IH.
Qed.

Section FormDataLemmas.

Import FormData.

Lemma getAll_cons key e fd :
  getAll key (e :: fd)
  = if decide (e.1 = key) then e.2 :: getAll key fd else getAll key fd.
Proof. unfold getAll. rewrite filter_cons. by destruct (decide (e.1 = key)). Qed.

Lemma getAll_app name fd1 fd2 :
  getAll name (fd1 ++ fd2) = getAll name fd1 ++ getAll name fd2.
Proof. unfold getAll. by rewrite filter_app, fmap_app. Qed.

Lemma getAll_append_eq name v fd :
  getAll name (append name v fd) = getAll name fd ++ [v].
Proof.
  unfold append. rewrite getAll_app, getAll_cons. simpl.
  by destruct (decide (name = name)).
Qed.

Lemma getAll_append_ne key name v fd :
  key ≠ name -> getAll key (append name v fd) = getAll key fd.
Proof.
  intros Hne. unfold append. rewrite getAll_app, getAll_cons. simpl.
  destruct (decide (name = key)); [congruence|].
  by rewrite app_nil_r.
Qed.

Lemma getAll_filter_ne_same name fd :
  getAll name (filter (fun e => e.1 ≠ name) fd) = [].
Proof.
  induction fd as [|e fd IH]; [done|].
  rewrite filter_cons. destruct (decide (e.1 ≠ name)) as [Hne|Heq]; [|done].
  rewrite getAll_cons. by destruct (decide (e.1 = name)).
Qed.

Lemma getAll_filter_ne_other key name fd :
  key ≠ name ->
  getAll key (filter (fun e => e.1 ≠ name) fd) = getAll key fd.
Proof.
  intros Hne. induction fd as [|e fd IH]; [done|].
  rewrite filter_cons, (getAll_cons key e fd).
  destruct (decide (e.1 ≠ name)) as [Hn|Hn].
  - rewrite getAll_cons. by rewrite IH.
  - destruct (decide (e.1 = key)) as [He|He]; [|done].
    exfalso. apply Hn. congruence.
Qed.

Lemma has_false_getAll name fd : has name fd = false -> getAll name fd = [].
Proof.
  unfold has. induction fd as [|e fd IH]; [done|]. simpl.
  intros H. apply orb_false_iff in H as [He Hrest].
  rewrite getAll_cons. apply String.eqb_neq in He.
  destruct (decide (e.1 = name)); [done|]. by apply IH.
Qed.

Lemma getAll_replace_first_eq name v fd :
  has name fd = true -> getAll name (replace_first name v fd) = [v].
Proof.
  unfold has. induction fd as [|e fd IH]; [done|]. simpl.
  destruct (String.eqb_spec e.1 name) as [He|He]; simpl.
  - intros _. rewrite getAll_cons, getAll_filter_ne_same. simpl.
    by destruct (decide (name = name)).
  - intros H. rewrite getAll_cons.
    destruct (decide (e.1 = name)); [done|]. by apply IH.
Qed.

Lemma getAll_replace_first_ne key name v fd :
  key ≠ name -> getAll key (replace_first name v fd) = getAll key fd.
Proof.
  intros Hne. induction fd as [|e fd IH]; [done|]. simpl.
  destruct (String.eqb_spec e.1 name) as [He|He].
  - rewrite !getAll_cons, getAll_filter_ne_other by done. simpl.
    destruct (decide (name = key)); [congruence|].
    destruct (decide (e.1 = key)); [congruence|]. done.
  - by rewrite !getAll_cons, IH.
Qed.

Lemma getAll_set_eq name v fd : getAll name (set name v fd) = [v].
Proof.
  unfold set. destruct (has name fd) eqn:Hhas.
  - by apply getAll_replace_first_eq.
  - rewrite getAll_append_eq. by rewrite has_false_getAll.
Qed.

Lemma getAll_set_ne key name v fd :
  key ≠ name -> getAll key (set name v fd) = getAll key fd.
Proof.
  intros Hne. unfold set. destruct (has name fd).
  - by apply getAll_replace_first_ne.
  - by apply getAll_append_ne.
Qed.

Lemma getAll_append_all_eq name items fd :
  getAll name (foldl (fun fd item => append name item fd) fd items)
  = getAll name fd ++ items.
Proof.
  revert fd. induction items as [|item items IH]; intros fd; simpl.
  - by rewrite app_nil_r.
  - rewrite IH, getAll_append_eq. by rewrite <- app_assoc.
Qed.

Lemma getAll_append_all_ne key name items fd :
  key ≠ name ->
  getAll key (foldl (fun fd item => append name item fd) fd items) = getAll key fd.
Proof.
  intros Hne. revert fd. induction items as [|item items IH]; intros fd; simpl.
  - done.
  - by rewrite IH, getAll_append_ne.
Qed.

End FormDataLemmas.

Section ConvertToFormData.

Import FormData Http FormSpec.

Lemma add_field_other key fd field :
  written_name field ≠ key ->
  getAll key (add_field fd field) = getAll key fd.
Proof.
  destruct field as [name v]. unfold written_name, add_field. simpl.
  destruct (as_list v) as [items|]; intros Hne.
  - by apply getAll_append_all_ne.
  - by apply getAll_set_ne.
Qed.

Lemma add_field_own fd field :
  getAll (written_name field) fd = [] ->
  getAll (written_name field) (add_field fd field) = written_values field.
Proof.
  destruct field as [name v].
  unfold written_name, written_values, add_field. simpl.
  destruct (as_list v) as [items|]; intros Hfresh.
  - by rewrite getAll_append_all_eq, Hfresh.
  - apply getAll_set_eq.
Qed.

Lemma foldl_add_field_other key fields fd :
  Forall (fun field => written_name field ≠ key) fields ->
  getAll key (foldl add_field fd fields) = getAll key fd.
Proof.
  revert fd. induction fields as [|field fields IH]; intros fd Hall; simpl.
  - done.
  - apply Forall_cons in Hall as [Hfield Hall].
    rewrite IH by done. by apply add_field_other.
Qed.

Lemma convertToFormData_field data headers field :
  field ∈ data ->
  (forall other, other ∈ data -> other.1 ≠ field.1 ->
                 written_name other ≠ written_name field) ->
  NoDup data.*1 ->
  getAll (written_name field) (convertToFormData data headers)
  = written_values field.
Proof.
  intros Hin Hothers Hnodup.
  apply list_elem_of_split in Hin as (l1 & l2 & ->).
  rewrite fmap_app, fmap_cons in Hnodup.
  apply NoDup_app in Hnodup as (_ & Hl1 & Hnodup).
  apply NoDup_cons in Hnodup as [Hl2 _].
  assert (H1 : Forall (fun other => written_name other ≠ written_name field) l1).
  { apply Forall_forall. intros other Ho. apply Hothers.
    - apply elem_of_app. by left.
    - intros Heq. apply (Hl1 other.1).
      + by apply list_elem_of_fmap_2.
      + rewrite Heq. by left. }
  assert (H2 : Forall (fun other => written_name other ≠ written_name field) l2).
  { apply Forall_forall. intros other Ho. apply Hothers.
    - apply elem_of_app. right. by right.
    - intros Heq. apply Hl2. rewrite <- Heq. by apply list_elem_of_fmap_2. }
  unfold convertToFormData. rewrite foldl_app. simpl.
  rewrite foldl_add_field_other by done.
  apply add_field_own.
  by rewrite foldl_add_field_other.
Qed.

End ConvertToFormData.

(** C5, amended.  For a payload whose field names are distinct:
    a list-valued field [f] with elements [items] yields exactly the entries
    [items] under [f[]], in element order, provided no field is itself named
    [f[]]; a field [f] with a value [v] that is no list yields exactly the
    one entry [v] under [f], provided no list-valued field [g] has
    [g[] = f]. *)
Theorem convertToFormData_entries
    (data : list (string * value)) (headers : value) :
  NoDup data.*1 ->
  (forall name v items,
     (name, v) ∈ data -> Http.as_list v = Some items ->
     name +:+ "[]" ∉ data.*1 ->
     FormData.getAll (name +:+ "[]") (Http.convertToFormData data headers)
     = items) ∧
  (forall name v,
     (name, v) ∈ data -> Http.as_list v = None ->
     (forall other w, (other, w) ∈ data -> is_Some (Http.as_list w) ->
                      other +:+ "[]" ≠ name) ->
     FormData.getAll name (Http.convertToFormData data headers) = [v]).
Proof.
  intros Hnodup. split.
  - intros name v items Hin Hlist Hfree.
    pose proof (convertToFormData_field data headers (name, v) Hin) as H.
    unfold FormSpec.written_name, FormSpec.written_values in H. simpl in H.
    rewrite Hlist in H. apply H; [|done].
    intros [other w] Ho Hne. simpl in *.
    destruct (Http.as_list w).
    + intros Heq. apply Hne. by apply string_app_inj_r in Heq.
    + intros Heq. apply Hfree. rewrite <- Heq.
      by apply (list_elem_of_fmap_2 fst _ (other, w)).
  - intros name v Hin Hscalar Hfree.
    pose proof (convertToFormData_field data headers (name, v) Hin) as H.
    unfold FormSpec.written_name, FormSpec.written_values in H. simpl in H.
    rewrite Hscalar in H. apply H; [|done].
    intros [other w] Ho Hne. simpl in *.
    destruct (Http.as_list w) eqn:Hw.
    + apply (Hfree other w); [done|]. rewrite Hw. by eexists.
    + done.
Qed.

Lemma convertToFormData_entries_witness :
  NoDup upload_payload.*1 ∧
  FormData.getAll "tags[]" (Http.convertToFormData upload_payload VUndefined)
    = [VStr "a"; VStr "b"] ∧
  FormData.getAll "files[]" (Http.convertToFormData upload_payload VUndefined)
    = [VFile "p.png"; VFile "q.png"; VFile "r.png"] ∧
  FormData.getAll "title" (Http.convertToFormData upload_payload VUndefined)
    = [VStr "report"].
Proof.
  assert (Hnodup : NoDup upload_payload.*1).
  { compute_done. }
  split; [exact Hnodup|].
  destruct (convertToFormData_entries upload_payload VUndefined Hnodup)
    as [Hlist Hscalar].
  split; [|split].
  - apply (Hlist "tags" (VArr [VStr "a"; VStr "b"])).
    + unfold upload_payload. set_solver.
    + reflexivity.
    + compute_done.
  - apply (Hlist "files" (VFileList [VFile "p.png"; VFile "q.png"; VFile "r.png"])).
    + unfold upload_payload. set_solver.
    + reflexivity.
    + compute_done.
  - apply (Hscalar "title" (VStr "report")).
    + unfold upload_payload. set_solver.
    + reflexivity.
    + intros other w Hin _.
      unfold upload_payload in Hin.
      repeat (apply elem_of_cons in Hin as [[= -> ->]|Hin]; [by simpl|]).
      by apply elem_of_nil in Hin.
Defined.

(** C5 as stated fails when a field is named like the entries of a list
    field: the later [set("a[]", ...)] replaces the first entry appended for
    the list [a] and removes the second. *)
Lemma convertToFormData_name_clash :
  let data := [("a", VArr [VStr "1"; VStr "2"]); ("a[]", VStr "x")] in
  NoDup data.*1 ∧
  FormData.getAll "a[]" (Http.convertToFormData data VUndefined) = [VStr "x"] ∧
  FormData.getAll "a[]" (Http.convertToFormData data VUndefined)
    ≠ [VStr "1"; VStr "2"].
Proof.
  split; [compute_done|].
  split; [reflexivity|]. vm_compute. discriminate.
Qed.

(** In the other order the scalar field ends up with three entries. *)
Example convertToFormData_name_clash_scalar :
  let data := [("a[]", VStr "x"); ("a", VArr [VStr "1"; VStr "2"])] in
  FormData.getAll "a[]" (Http.convertToFormData data VUndefined)
    = [VStr "x"; VStr "1"; VStr "2"].
Proof. reflexivity. Qed.

(** ** [request]: the configuration object *)

Section RequestConfig.

Import Http RequestSpec.

Lemma lookup_assign config name v w content :
  configs w !! config = Some content ->
  configs (assign config name v w) !! config = Some (<[name := v]> content).
Proof. intros H. unfold assign. simpl. by rewrite lookup_alter_eq, H. Qed.

Lemma lookup_assign_ne config other name v w :
  other ≠ config ->
  configs (assign config name v w) !! other = configs w !! other.
Proof. intros H. unfold assign. simpl. by rewrite lookup_alter_ne. Qed.

Lemma read_field config name w content :
  configs w !! config = Some content -> read config name w = field content name.
Proof. intros H. unfold read. by rewrite H. Qed.

Lemma install_hooks_lookup config onProgress w content :
  configs w !! config = Some content ->
  configs (install_hooks config onProgress w) !! config
  = Some (hooked content (tokens w) onProgress).
Proof.
  intros H. unfold install_hooks, hooked.
  set (w0 := set_tokens (S (tokens w)) w).
  assert (H0 : configs w0 !! config = Some content) by done.
  pose proof (lookup_assign config "cancelToken" (VCancelToken (tokens w)) _ _ H0) as H1.
  set (w1 := assign config "cancelToken" _ w0) in *.
  set (c1 := <["cancelToken" := _]> content) in *.
  rewrite (read_field _ _ _ _ H1).
  set (w2 := if ToBoolean (field c1 "paramsSerializer") then w1 else _).
  set (c2 := if ToBoolean (field c1 "paramsSerializer") then c1 else _).
  assert (H2 : configs w2 !! config = Some c2).
  { subst w2 c2. destruct (ToBoolean (field c1 "paramsSerializer"));
      [exact H1|]. by apply lookup_assign. }
  rewrite (read_field _ _ _ _ H2).
  set (w3 := if ToBoolean (field c2 "transformRequest") then w2 else _).
  set (c3 := if ToBoolean (field c2 "transformRequest") then c2 else _).
  assert (H3 : configs w3 !! config = Some c3).
  { subst w3 c3. destruct (ToBoolean (field c2 "transformRequest"));
      [exact H2|]. by apply lookup_assign. }
  destruct onProgress as [callback|]; [|done].
  by do 2 apply lookup_assign.
Qed.

Lemma install_hooks_lookup_ne config other onProgress w :
  other ≠ config ->
  configs (install_hooks config onProgress w) !! other = configs w !! other.
Proof.
  intros Hne. unfold install_hooks.
  repeat (case_match; rewrite ?lookup_assign_ne by done); done.
Qed.

Lemma install_hooks_rest config onProgress w :
  let w' := install_hooks config onProgress w in
  promises w' = promises w ∧ jobs w' = jobs w ∧
  errorListeners w' = errorListeners w ∧ calls w' = calls w ∧
  submitted w' = submitted w ∧ observed w' = observed w ∧
  tokens w' = S (tokens w).
Proof. unfold install_hooks. repeat case_match; done. Qed.

(** What [hooked] holds, field by field. *)
Lemma hooked_other content cancelFn onProgress name :
  name ∉ hook_names ->
  hooked content cancelFn onProgress !! name = content !! name.
Proof.
  unfold hook_names. intros Hnot.
  repeat (apply not_elem_of_cons in Hnot as [? Hnot]).
  unfold hooked.
  repeat (case_match; rewrite ?lookup_insert_ne by done); done.
Qed.

Lemma hooked_cancelToken content cancelFn onProgress :
  hooked content cancelFn onProgress !! "cancelToken" = Some (VCancelToken cancelFn).
Proof.
  unfold hooked.
  repeat (case_match; rewrite ?lookup_insert_ne by done);
    by rewrite lookup_insert_eq.
Qed.

Lemma hooked_paramsSerializer content cancelFn onProgress :
  hooked content cancelFn onProgress !! "paramsSerializer"
  = if ToBoolean (field content "paramsSerializer")
    then content !! "paramsSerializer"
    else Some (VFun Fn_urlEncode).
Proof.
  unfold hooked.
  assert (Hf : field (<["cancelToken" := VCancelToken cancelFn]> content)
                 "paramsSerializer" = field content "paramsSerializer").
  { unfold field. by rewrite lookup_insert_ne. }
  rewrite Hf.
  repeat (case_match; rewrite ?lookup_insert_ne by done);
    rewrite ?lookup_insert_eq; done.
Qed.

Lemma hooked_transformRequest content cancelFn onProgress :
  hooked content cancelFn onProgress !! "transformRequest"
  = if ToBoolean (field content "transformRequest")
    then content !! "transformRequest"
    else Some (VFun Fn_convertToFormData).
Proof.
  unfold hooked.
  set (c1 := <["cancelToken" := VCancelToken cancelFn]> content).
  set (c2 := if ToBoolean (field c1 "paramsSerializer") then c1 else _).
  assert (Hl : c2 !! "transformRequest" = content !! "transformRequest").
  { subst c2 c1. case_match; rewrite ?lookup_insert_ne by done; done. }
  assert (Hf : field c2 "transformRequest" = field content "transformRequest").
  { unfold field. by rewrite Hl. }
  rewrite Hf.
  repeat (case_match; rewrite ?lookup_insert_ne by done);
    rewrite ?lookup_insert_eq; done.
Qed.

Lemma hooked_progress content cancelFn callback :
  hooked content cancelFn (Some callback) !! "onDownloadProgress"
    = Some (VFun (Fn_progress callback)) ∧
  hooked content cancelFn (Some callback) !! "onUploadProgress"
    = Some (VFun (Fn_progress callback)).
Proof.
  unfold hooked. split.
  - by rewrite lookup_insert_eq.
  - rewrite lookup_insert_ne by done. by rewrite lookup_insert_eq.
Qed.

Lemma hooked_progress_absent content cancelFn :
  hooked content cancelFn None !! "onDownloadProgress"
    = content !! "onDownloadProgress" ∧
  hooked content cancelFn None !! "onUploadProgress"
    = content !! "onUploadProgress".
Proof.
  unfold hooked.
  split; repeat (case_match; rewrite ?lookup_insert_ne by done); done.
Qed.

End RequestConfig.

Section RequestShape.

Import Http RequestSpec.

Lemma install_hooks_dom config onProgress w :
  dom (configs (install_hooks config onProgress w)) = dom (configs w).
Proof.
  unfold install_hooks, assign.
  repeat (case_match; simpl; rewrite ?dom_alter_L); done.
Qed.

(** [request] unfolded: what it returns and the world it leaves. *)
Lemma request_inv config onProgress w promise cancelFn w' :
  request config onProgress w = Some (promise, cancelFn, w') ->
  exists content,
    configs w !! config = Some content ∧
    promise = length (promises w) ∧
    cancelFn = tokens w ∧
    configs w' = configs (install_hooks config onProgress w) ∧
    promises w'
      = promises w ++ [Promise Pending [Reaction OnError (S (length (promises w)))];
                       Promise Pending []] ∧
    jobs w' = jobs w ∧
    errorListeners w' = errorListeners w ∧
    calls w' = calls w ∧
    observed w' = observed w ∧
    submitted w'
      = submitted w ++ [(config, hooked content (tokens w) onProgress,
                         length (promises w))].
Proof.
  unfold request. destruct (configs w !! config) as [content|] eqn:Hc; [|done].
  simpl. unfold Axios.request.
  rewrite (install_hooks_lookup _ _ _ _ Hc). simpl.
  destruct (install_hooks_rest config onProgress w)
    as (Hp & Hj & Hl & Hcalls & Hs & Ho & Ht).
  unfold catch, new_promise. simpl. rewrite !Hp.
  rewrite length_app. simpl.
  rewrite <- app_assoc. simpl.
  rewrite (list_lookup_middle (promises w) _ _ (length (promises w))) by done.
  intros [= <- <- <-]. exists content. simpl.
  rewrite Hj, Hl, Hcalls, Hs, Ho.
  repeat split; try done.
  rewrite Hp, <- app_assoc. simpl.
  replace (length (promises w)) with (length (promises w) + 0) at 1 by lia.
  rewrite insert_app_r. simpl.
  by replace (length (promises w) + 1) with (S (length (promises w))) by lia.
Qed.

Lemma request_Some config onProgress w content :
  configs w !! config = Some content ->
  is_Some (request config onProgress w).
Proof.
  intros Hc. unfold request. rewrite Hc. simpl. unfold Axios.request.
  rewrite (install_hooks_lookup _ _ _ _ Hc). simpl.
  unfold catch. by repeat case_match.
Qed.

End RequestShape.

(** C4.  [request] returns, and afterwards the configuration object, which
    is what the transport was handed, holds [urlEncode] as [paramsSerializer]
    when it had none (the field was absent or otherwise falsy), and
    [convertToFormData] as [transformRequest] when it had none; a hook the
    caller supplied (a truthy value) is left in place. *)
Theorem request_installs_default_hooks
    (config : nat) (onProgress : option string) (w : World)
    (content : gmap string value) :
  configs w !! config = Some content ->
  exists promise cancelFn w' content',
    Http.request config onProgress w = Some (promise, cancelFn, w') ∧
    configs w' !! config = Some content' ∧
    submitted w' = submitted w ++ [(config, content', promise)] ∧
    (ToBoolean (field content "paramsSerializer") = false ->
     content' !! "paramsSerializer" = Some (VFun Fn_urlEncode)) ∧
    (ToBoolean (field content "transformRequest") = false ->
     content' !! "transformRequest" = Some (VFun Fn_convertToFormData)) ∧
    (ToBoolean (field content "paramsSerializer") = true ->
     content' !! "paramsSerializer" = content !! "paramsSerializer") ∧
    (ToBoolean (field content "transformRequest") = true ->
     content' !! "transformRequest" = content !! "transformRequest").
Proof.
  intros Hc.
  destruct (request_Some config onProgress w content Hc)
    as [[[promise cancelFn] w'] Hreq].
  exists promise, cancelFn, w'.
  exists (RequestSpec.hooked content (tokens w) onProgress).
  split; [exact Hreq|].
  apply request_inv in Hreq
    as (content0 & Hc0 & -> & -> & Hconfigs & _ & _ & _ & _ & _ & Hsub).
  rewrite Hc in Hc0. injection Hc0 as <-.
  rewrite Hconfigs, (install_hooks_lookup _ _ _ _ Hc).
  rewrite hooked_paramsSerializer, hooked_transformRequest.
  repeat split; try done; by intros ->.
Qed.

Lemma request_installs_default_hooks_witness :
  configs (world_with bare_config) !! 0 = Some bare_config ∧
  exists promise cancelFn w' content',
    Http.request 0 None (world_with bare_config)
      = Some (promise, cancelFn, w') ∧
    configs w' !! 0 = Some content' ∧
    content' !! "paramsSerializer" = Some (VFun Fn_urlEncode) ∧
    content' !! "transformRequest" = Some (VFun Fn_convertToFormData).
Proof.
  split; [reflexivity|].
  destruct (request_installs_default_hooks 0 None (world_with bare_config)
              bare_config eq_refl)
    as (promise & cancelFn & w' & content' & Hreq & Hc' & _ & Hps & Htr & _).
  exists promise, cancelFn, w', content'.
  split; [exact Hreq|]. split; [exact Hc'|].
  split; [apply Hps|apply Htr]; reflexivity.
Defined.

(** Hooks of the caller survive [request]. *)
Example request_keeps_supplied_hooks :
  ('(_, _, w') ← Http.request 0 None (world_with custom_config);
   Some (read 0 "paramsSerializer" w',
         read 0 "transformRequest" w'))
  = Some (VFun (Fn_user "qs"), VArr [VFun (Fn_user "json")]).
Proof. vm_compute. reflexivity. Qed.

(** C8, amended.  [request] makes no copy: it writes into the configuration
    object of the caller and hands that very object to the transport.  It
    assigns [cancelToken] always (replacing one the caller supplied),
    [paramsSerializer] and [transformRequest] when the field is absent or
    otherwise falsy, and [onDownloadProgress] and [onUploadProgress] when
    [onProgress] is given; a serializer hook that is there, the progress
    hooks when [onProgress] is not given, every other field of the object,
    and every other object, are left as they were. *)
Theorem request_writes_hooks_in_place
    (config : nat) (onProgress : option string) (w : World)
    (content : gmap string value) :
  configs w !! config = Some content ->
  exists promise cancelFn w' content',
    Http.request config onProgress w = Some (promise, cancelFn, w') ∧
    configs w' !! config = Some content' ∧
    submitted w' = submitted w ++ [(config, content', promise)] ∧
    content' !! "cancelToken" = Some (VCancelToken cancelFn) ∧
    content' !! "paramsSerializer"
      = (if ToBoolean (field content "paramsSerializer")
         then content !! "paramsSerializer"
         else Some (VFun Fn_urlEncode)) ∧
    content' !! "transformRequest"
      = (if ToBoolean (field content "transformRequest")
         then content !! "transformRequest"
         else Some (VFun Fn_convertToFormData)) ∧
    match onProgress with
    | Some callback =>
      content' !! "onDownloadProgress" = Some (VFun (Fn_progress callback)) ∧
      content' !! "onUploadProgress" = Some (VFun (Fn_progress callback))
    | None =>
      content' !! "onDownloadProgress" = content !! "onDownloadProgress" ∧
      content' !! "onUploadProgress" = content !! "onUploadProgress"
    end ∧
    dom (configs w') = dom (configs w) ∧
    (forall name, name ∉ RequestSpec.hook_names -> content' !! name = content !! name) ∧
    (forall other, other ≠ config -> configs w' !! other = configs w !! other).
Proof.
  intros Hc.
  destruct (request_Some config onProgress w content Hc)
    as [[[promise cancelFn] w'] Hreq].
  exists promise, cancelFn, w'.
  exists (RequestSpec.hooked content (tokens w) onProgress).
  split; [exact Hreq|].
  apply request_inv in Hreq
    as (content0 & Hc0 & -> & -> & Hconfigs & _ & _ & _ & _ & _ & Hsub).
  rewrite Hc in Hc0. injection Hc0 as <-.
  rewrite Hconfigs, (install_hooks_lookup _ _ _ _ Hc), install_hooks_dom.
  split; [done|]. split; [done|].
  split; [apply hooked_cancelToken|].
  split; [apply hooked_paramsSerializer|].
  split; [apply hooked_transformRequest|].
  split.
  { destruct onProgress as [callback|].
    - apply hooked_progress.
    - apply hooked_progress_absent. }
  split; [done|]. split.
  - intros name Hname. by apply hooked_other.
  - intros other Hother. by apply install_hooks_lookup_ne.
Qed.

Lemma request_writes_hooks_in_place_witness :
  configs (world_with bare_config) !! 0 = Some bare_config ∧
  exists promise cancelFn w' content',
    Http.request 0 (Some "bar") (world_with bare_config)
      = Some (promise, cancelFn, w') ∧
    configs w' !! 0 = Some content' ∧
    content' !! "url" = Some (VStr "https://httpbin.org/status/404") ∧
    content' !! "cancelToken" = Some (VCancelToken cancelFn) ∧
    content' !! "paramsSerializer" = Some (VFun Fn_urlEncode) ∧
    content' !! "transformRequest" = Some (VFun Fn_convertToFormData) ∧
    content' !! "onDownloadProgress" = Some (VFun (Fn_progress "bar")) ∧
    content' !! "onUploadProgress" = Some (VFun (Fn_progress "bar")).
Proof.
  split; [reflexivity|].
  destruct (request_writes_hooks_in_place 0 (Some "bar") (world_with bare_config)
              bare_config eq_refl)
    as (promise & cancelFn & w' & content' & Hreq & Hc' & _ & Htoken
        & Hps & Htr & [Hdown Hup] & _ & Hframe & _).
  exists promise, cancelFn, w', content'.
  split; [exact Hreq|]. split; [exact Hc'|].
  split; [rewrite Hframe by compute_done; reflexivity|].
  split; [exact Htoken|].
  split; [rewrite Hps; reflexivity|].
  split; [rewrite Htr; reflexivity|].
  split; [exact Hdown|exact Hup].
Defined.

(** C8 as stated fails: the object handed to the transport is the caller's
    own (location 0, the only object there is), and after the call the
    caller reads a [cancelToken] from it that was not there before. *)
Lemma request_mutates_caller_config :
  exists w' content',
    Http.request 0 None (world_with bare_config) = Some (0, 0, w') ∧
    submitted w' = [(0, content', 0)] ∧
    dom (configs w') = {[ 0 ]} ∧
    read 0 "cancelToken" (world_with bare_config) = VUndefined ∧
    read 0 "cancelToken" w' = VCancelToken 0 ∧
    configs w' !! 0 ≠ configs (world_with bare_config) !! 0.
Proof.
  destruct (Http.request 0 None (world_with bare_config))
    as [[[promise cancelFn] w']|] eqn:Hreq; [|by vm_compute in Hreq].
  pose proof Hreq as Hinv.
  apply request_inv in Hinv
    as (content & Hc & -> & -> & Hconfigs & _ & _ & _ & _ & _ & Hsub).
  injection Hc as <-.
  exists w', (RequestSpec.hooked bare_config 0 None).
  assert (Hread : read 0 "cancelToken" w' = VCancelToken 0).
  { unfold read. rewrite Hconfigs.
    rewrite (install_hooks_lookup 0 None _ bare_config) by reflexivity.
    unfold field. by rewrite hooked_cancelToken. }
  repeat split; try done.
  - rewrite Hconfigs, install_hooks_dom. simpl. by rewrite dom_singleton_L.
  - intros Heq. unfold read in Hread. rewrite Heq in Hread.
    by vm_compute in Hread.
Qed.

(** ** [request]: the promise *)

Section PromiseStability.

Import Http.

Variable isCancel : value -> bool.
Variable body : IErrorListener -> value -> TErrorType -> behaviour.

(** A settled promise stays as it is, whatever happens. *)
Lemma state_of_new_promise p s w :
  state_of p w = Some s -> state_of p (new_promise w).2 = Some s.
Proof.
  unfold state_of, new_promise. simpl.
  destruct (promises w !! p) as [pr|] eqn:Hp; [|done].
  intros Hs. by rewrite (lookup_app_l_Some _ _ _ _ Hp).
Qed.

Lemma state_of_settle p o q o' w :
  state_of p w = Some (Settled o) ->
  state_of p (settle q o' w) = Some (Settled o).
Proof.
  intros Hs. unfold settle.
  destruct (promises w !! q) as [[[|oq] rs]|] eqn:Hq; try done.
  unfold state_of in *. simpl.
  destruct (decide (q = p)) as [->|Hne].
  - rewrite Hq in Hs. done.
  - by rewrite list_lookup_insert_ne.
Qed.

Lemma state_of_catch p o q h w :
  state_of p w = Some (Settled o) ->
  state_of p (catch q h w).2 = Some (Settled o).
Proof.
  intros Hs. apply state_of_new_promise in Hs.
  unfold catch. destruct (new_promise w) as [d w1]. simpl in Hs.
  destruct (promises w1 !! q) as [[[|oq] rs]|] eqn:Hq; simpl; try done.
  unfold state_of in *. simpl.
  destruct (decide (q = p)) as [->|Hne].
  - rewrite Hq in Hs. done.
  - by rewrite list_lookup_insert_ne.
Qed.

Lemma state_of_request p o config onProgress w promise cancelFn w' :
  state_of p w = Some (Settled o) ->
  request config onProgress w = Some (promise, cancelFn, w') ->
  state_of p w' = Some (Settled o).
Proof.
  intros Hs Hreq.
  apply request_inv in Hreq as (_ & _ & _ & _ & _ & Hp & _).
  unfold state_of in *. rewrite Hp.
  destruct (promises w !! p) as [pr|] eqn:Hl; [|done].
  by rewrite (lookup_app_l_Some _ _ _ _ Hl).
Qed.

Lemma state_of_run_job p o fuel w w' :
  state_of p w = Some (Settled o) ->
  run_job isCancel body fuel w = Some w' ->
  state_of p w' = Some (Settled o).
Proof.
  intros Hs. unfold run_job.
  destruct (jobs w) as [|[h oj d] rest]; [done|].
  destruct oj as [v|reason].
  - intros [= <-]. by apply state_of_settle.
  - destruct h as [|name].
    + simpl.
      destruct (Http.onError isCancel body fuel (errorListeners w) reason)
        as [[[ls made] [[]|e]]|]; intros [= <-]; by apply state_of_settle.
    + intros [= <-]. by apply state_of_settle.
Qed.

Lemma state_of_step p o w w' :
  state_of p w = Some (Settled o) ->
  step isCancel body w w' ->
  state_of p w' = Some (Settled o).
Proof.
  intros Hs Hstep. destruct Hstep.
  - eapply state_of_request; eauto.
  - by apply state_of_catch.
  - by apply state_of_settle.
  - eapply state_of_run_job; eauto.
  - done.
Qed.

Lemma state_of_steps p o w w' :
  state_of p w = Some (Settled o) ->
  rtc (step isCancel body) w w' ->
  state_of p w' = Some (Settled o).
Proof.
  intros Hs Hsteps. induction Hsteps as [|w1 w2 w3 Hstep _ IH]; [done|].
  apply IH. eapply state_of_step; eauto.
Qed.

End PromiseStability.

(** C3.  [request] returns, and the promise it returns is the transport's
    own promise, not the one [catch] derives from it.  When the transport
    rejects it with [reason], it is rejected with [reason]; the adapter's
    reaction and a handler the caller attached are both queued with [reason]
    itself, the caller's after the adapter's; and nothing that happens later
    (running [onError], whatever the listeners do, further calls) changes
    the rejection the caller sees. *)
Theorem request_rejection_reaches_caller_unchanged
    (isCancel : value -> bool)
    (body : IErrorListener -> value -> TErrorType -> behaviour)
    (config : nat) (onProgress : option string) (w : World)
    (content : gmap string value) (handler : string) (reason : value) :
  configs w !! config = Some content ->
  exists promise cancelFn w1,
    Http.request config onProgress w = Some (promise, cancelFn, w1) ∧
    let w2 := (catch promise (Caller handler) w1).2 in
    let w3 := settle promise (Reject reason) w2 in
    (exists submitted_content,
       submitted w1 = submitted w ++ [(config, submitted_content, promise)]) ∧
    state_of promise w1 = Some Pending ∧
    state_of promise w3 = Some (Settled (Reject reason)) ∧
    (exists d1 d2,
       jobs w3 = jobs w ++ [Job OnError (Reject reason) d1;
                            Job (Caller handler) (Reject reason) d2]) ∧
    (forall w4, rtc (Http.step isCancel body) w3 w4 ->
                state_of promise w4 = Some (Settled (Reject reason))).
Proof.
  intros Hcontent.
  destruct (request_Some config onProgress w content Hcontent)
    as [[[promise cancelFn] w1] Hreq].
  exists promise, cancelFn, w1. split; [exact Hreq|].
  intros w2 w3.
  apply request_inv in Hreq
    as (content0 & Hc & -> & -> & Hconfigs & Hp & Hj & Hl & Hcalls & Ho & Hsub).
  set (n := length (promises w)) in *.
  assert (Hlook1 : promises w1 !! n
                   = Some (Promise Pending [Reaction OnError (S n)])).
  { rewrite Hp. by apply list_lookup_middle. }
  assert (Hw2 : promises w2 !! n
                = Some (Promise Pending [Reaction OnError (S n);
                                         Reaction (Caller handler) (length (promises w1))])
                ∧ jobs w2 = jobs w).
  { subst w2. unfold catch, new_promise. simpl.
    rewrite (lookup_app_l_Some _ _ _ _ Hlook1). simpl.
    split; [|done].
    apply list_lookup_insert_eq. rewrite length_app.
    apply lookup_lt_Some in Hlook1. lia. }
  destruct Hw2 as [Hlook2 Hj2].
  assert (Hstate3 : state_of n w3 = Some (Settled (Reject reason))).
  { subst w3. unfold settle, state_of. rewrite Hlook2. simpl.
    rewrite list_lookup_insert_eq; [done|]. by apply lookup_lt_Some in Hlook2. }
  split; [by eexists|].
  split; [unfold state_of; by rewrite Hlook1|].
  split; [done|].
  split.
  - exists (S n), (length (promises w1)).
    subst w3. unfold settle. rewrite Hlook2. simpl. by rewrite Hj2.
  - intros w4 Hsteps. eapply state_of_steps; eauto.
Qed.

(** ** Doubles: rounding stays below a bound *)

Section Doubles.

Local Open Scope Z_scope.


Lemma digits2_pos_bounds (m : positive) :
  2 ^ (Zpos (digits2_pos m) - 1) <= Zpos m < 2 ^ Zpos (digits2_pos m).
Proof.
  induction m as [m IH|m IH|]; simpl digits2_pos.
  - rewrite Pos2Z.inj_succ.
    replace (Z.succ (Zpos (digits2_pos m)) - 1) with (Zpos (digits2_pos m) - 1 + 1) by lia.
    rewrite Z.pow_succ_r by lia.
    rewrite Z.pow_add_r by lia. lia.
  - rewrite Pos2Z.inj_succ.
    replace (Z.succ (Zpos (digits2_pos m)) - 1) with (Zpos (digits2_pos m) - 1 + 1) by lia.
    rewrite Z.pow_succ_r by lia.
    rewrite Z.pow_add_r by lia. lia.
  - simpl. lia.
Qed.

Lemma iter_pos_nat {A} (f : A -> A) (n : positive) (x : A) :
  SpecFloat.iter_pos f n x = Nat.iter (Pos.to_nat n) f x.
Proof.
  revert x. induction n as [n IH|n IH|]; intros x; simpl SpecFloat.iter_pos.
  - rewrite !IH. rewrite Pos2Nat.inj_xI.
    replace (S (2 * Pos.to_nat n))%nat with (Pos.to_nat n + (Pos.to_nat n + 1))%nat by lia.
    rewrite !Nat.iter_add. simpl. reflexivity.
  - rewrite !IH. rewrite Pos2Nat.inj_xO.
    replace (2 * Pos.to_nat n)%nat with (Pos.to_nat n + Pos.to_nat n)%nat by lia.
    rewrite Nat.iter_add. reflexivity.
  - reflexivity.
Qed.

Lemma shr_1_nonneg m r s :
  0 <= m ->
  shr_1 (Build_shr_record m r s) = Build_shr_record (m / 2) (Z.odd m) (r || s).
Proof.
  intros Hm. destruct m as [|p|p]; [reflexivity| |lia].
  destruct p as [p|p|]; simpl shr_1.
  - f_equal. rewrite Pos2Z.inj_xI. apply Z.div_unique with 1; lia.
  - f_equal. rewrite Pos2Z.inj_xO. apply Z.div_unique with 0; lia.
  - reflexivity.
Qed.

Lemma shr_iter_spec (k : nat) m r s :
  0 <= m ->
  let res := Nat.iter k shr_1 (Build_shr_record m r s) in
  shr_m res = m / 2 ^ Z.of_nat k /\
  (r = false -> s = false -> m mod 2 ^ Z.of_nat k = 0 ->
   shr_r res = false /\ shr_s res = false).
Proof.
  intros Hm. induction k as [|k IH].
  - simpl. split; [now rewrite Z.div_1_r|]. intros -> -> _. auto.
  - cbn zeta in *. rewrite Nat2Z.inj_succ, Z.pow_succ_r by lia.
    simpl Nat.iter.
    destruct (Nat.iter k shr_1 (Build_shr_record m r s)) as [mk rk sk] eqn:Hit.
    cbn [shr_m shr_r shr_s] in IH. destruct IH as [Hmk Hex].
    assert (Hpow : 0 < 2 ^ Z.of_nat k) by (apply Z.pow_pos_nonneg; lia).
    assert (Hmk0 : 0 <= mk) by (subst mk; apply Z.div_pos; lia).
    rewrite shr_1_nonneg by assumption. cbn [shr_m shr_r shr_s]. split.
    + subst mk. rewrite Z.div_div by lia. f_equal. lia.
    + intros Hr Hs Hmod.
      assert (Hmodk : m mod 2 ^ Z.of_nat k = 0).
      { apply Z.mod_divide in Hmod; [|lia]. apply Z.mod_divide; [lia|].
        destruct Hmod as [c Hc]. exists (c * 2). lia. }
      destruct (Hex Hr Hs Hmodk) as [-> ->]. split; [|reflexivity].
      apply Z.mod_divide in Hmod; [|lia]. destruct Hmod as [c Hc].
      assert (Heven : mk = 2 * c).
      { subst mk. rewrite Hc.
        replace (c * (2 * 2 ^ Z.of_nat k)) with ((2 * c) * 2 ^ Z.of_nat k) by lia.
        apply Z.div_mul. lia. }
      rewrite Heven, Z.odd_mul. reflexivity.
Qed.

Lemma shr_record_of_loc_m m l : shr_m (shr_record_of_loc m l) = m.
Proof. destruct l as [|[]]; reflexivity. Qed.

Lemma shr_spec rec e n :
  0 <= shr_m rec ->
  exists k,
    0 <= k /\ k = Z.max n 0 /\
    snd (shr rec e n) = e + k /\
    shr_m (fst (shr rec e n)) = shr_m rec / 2 ^ k /\
    (shr_r rec = false -> shr_s rec = false -> shr_m rec mod 2 ^ k = 0 ->
     loc_of_shr_record (fst (shr rec e n)) = loc_Exact).
Proof.
  intros Hm. destruct rec as [m r s]. cbn [shr_m shr_r shr_s] in *.
  destruct n as [|p|p].
  - exists 0. cbn [shr fst snd shr_m]. rewrite Z.div_1_r.
    repeat split; try lia. intros -> -> _. reflexivity.
  - exists (Zpos p). cbn [shr fst snd]. rewrite iter_pos_nat.
    destruct (shr_iter_spec (Pos.to_nat p) m r s Hm) as [Hk Hex].
    rewrite positive_nat_Z in Hk, Hex.
    split; [lia|]. split; [lia|]. split; [reflexivity|]. split; [exact Hk|].
    intros Hr Hs Hmod. destruct (Hex Hr Hs Hmod) as [Hr' Hs'].
    destruct (Nat.iter (Pos.to_nat p) shr_1 _) as [m' r' s'].
    cbn [shr_r shr_s] in *. subst. reflexivity.
  - exists 0. cbn [shr fst snd shr_m]. rewrite Z.div_1_r.
    repeat split; try lia. intros -> -> _. reflexivity.
Qed.

Lemma round_nearest_even_bounds m l :
  m <= round_nearest_even m l <= m + 1 /\
  (l = loc_Exact -> round_nearest_even m l = m).
Proof.
  destruct l as [|[]]; simpl.
  - split; [lia|reflexivity].
  - destruct (Z.even m); split; try lia; discriminate.
  - split; [lia|discriminate].
  - split; [lia|discriminate].
Qed.

Lemma Zdigits2_le m b :
  0 <= m -> 0 <= b -> m < 2 ^ b -> Zdigits2 m <= b.
Proof.
  intros Hm Hb Hlt. destruct m as [|p|p]; [simpl; lia| |lia].
  simpl. pose proof (digits2_pos_bounds p) as [Hlo _].
  assert (Hlt' : 2 ^ (Zpos (digits2_pos p) - 1) < 2 ^ b) by lia.
  apply Z.pow_lt_mono_r_iff in Hlt'; lia.
Qed.

Lemma fexp64_eq k : Number.fexp64 k = Z.max (k - 53) (-1074).
Proof. reflexivity. Qed.

Section RoundBound.

Variable K : Z.
Hypothesis HK : 1 <= K < 2 ^ 53.

Lemma bounded_fexp m e :
  0 <= m -> e <= 0 -> m <= K * 2 ^ (- e) ->
  Number.fexp64 (Zdigits2 m + e) <= 0.
Proof.
  intros Hm He Hb. rewrite fexp64_eq.
  assert (Hd : Zdigits2 m <= 53 - e).
  { apply Zdigits2_le; try lia.
    replace (53 - e) with (53 + - e) by lia. rewrite Z.pow_add_r by lia.
    assert (0 < 2 ^ (- e)) by (apply Z.pow_pos_nonneg; lia). nia. }
  lia.
Qed.

(** One [shr_fexp] keeps a mantissa below the bound, and an exact one
    exact. *)
Lemma shr_fexp_bound m e l :
  0 <= m -> e <= 0 -> m <= K * 2 ^ (- e) ->
  (m = K * 2 ^ (- e) -> l = loc_Exact) ->
  let res := shr_fexp 53 1024 m e l in
  let m' := shr_m (fst res) in
  let e' := snd res in
  0 <= m' /\ e' <= 0 /\ m' <= K * 2 ^ (- e') /\
  (m' = K * 2 ^ (- e') -> loc_of_shr_record (fst res) = loc_Exact).
Proof.
  intros Hm He Hb Hex. unfold shr_fexp. cbn zeta.
  change (fexp 53 1024) with Number.fexp64.
  pose proof (bounded_fexp m e Hm He Hb) as Hf.
  set (n := Number.fexp64 (Zdigits2 m + e) - e) in *.
  assert (Hm0 : 0 <= shr_m (shr_record_of_loc m l))
    by (rewrite shr_record_of_loc_m; exact Hm).
  destruct (shr_spec (shr_record_of_loc m l) e n Hm0)
    as (k & Hk0 & Hk & He' & Hm' & Hloc).
  rewrite shr_record_of_loc_m in Hm', Hloc.
  rewrite He', Hm'.
  assert (Hpk : 0 < 2 ^ k) by (apply Z.pow_pos_nonneg; lia).
  assert (He1 : e + k <= 0) by lia.
  assert (Hsplit : 2 ^ (- e) = 2 ^ (- (e + k)) * 2 ^ k).
  { rewrite <- Z.pow_add_r by lia. f_equal. lia. }
  assert (Hdiv : m / 2 ^ k <= K * 2 ^ (- (e + k))).
  { apply Z.div_le_upper_bound; [lia|]. rewrite Hsplit in Hb. lia. }
  repeat split; try assumption.
  - apply Z.div_pos; lia.
  - intros Heq.
    pose proof (Z.mul_div_le m (2 ^ k) Hpk) as Hle.
    assert (Hmeq : m = K * 2 ^ (- e)).
    { rewrite Hsplit. rewrite Heq in Hle. rewrite Hsplit in Hb. lia. }
    specialize (Hex Hmeq). subst l. simpl in Hloc.
    apply Hloc; try reflexivity.
    rewrite Hmeq, Hsplit, Z.mul_assoc. apply Z.mod_mul. lia.
Qed.

Lemma binary_round_aux_bound sx m e l :
  0 <= m -> e <= 0 -> m <= K * 2 ^ (- e) ->
  (m = K * 2 ^ (- e) -> l = loc_Exact) ->
  match binary_round_aux 53 1024 sx m e l with
  | S754_zero s => s = sx
  | S754_finite s m' e' => s = sx /\ e' <= 0 /\ Zpos m' <= K * 2 ^ (- e')
  | _ => False
  end.
Proof.
  intros Hm He Hb Hex. unfold binary_round_aux.
  pose proof (shr_fexp_bound m e l Hm He Hb Hex) as H1. cbn zeta in H1.
  destruct (shr_fexp 53 1024 m e l) as [mrs1 e1].
  cbn [fst snd] in H1. destruct H1 as (Hm1 & He1 & Hb1 & Hex1).
  pose proof (round_nearest_even_bounds (shr_m mrs1) (loc_of_shr_record mrs1))
    as [Hr Hrex].
  set (m2 := round_nearest_even (shr_m mrs1) (loc_of_shr_record mrs1)) in *.
  assert (Hb2 : m2 <= K * 2 ^ (- e1)).
  { destruct (Z.eq_dec (shr_m mrs1) (K * 2 ^ (- e1))) as [Heq|Hne].
    - rewrite (Hrex (Hex1 Heq)). lia.
    - lia. }
  assert (Hm2 : 0 <= m2) by lia.
  pose proof (shr_fexp_bound m2 e1 loc_Exact Hm2 He1 Hb2 (fun _ => eq_refl)) as H2.
  cbn zeta in H2.
  destruct (shr_fexp 53 1024 m2 e1 loc_Exact) as [mrs2 e2].
  cbn [fst snd] in H2. destruct H2 as (Hm3 & He3 & Hb3 & _).
  destruct (shr_m mrs2) as [|p|p]; [reflexivity| |lia].
  replace (e2 <=? 1024 - 53) with true by (symmetry; apply Z.leb_le; lia).
  auto.
Qed.

End RoundBound.


Lemma valid_finite_digits m e :
  valid_binary 53 1024 (S754_finite false m e) = true ->
  Zpos (digits2_pos m) <= 53 /\ -1074 <= e /\
  (-1074 < e -> Zpos (digits2_pos m) = 53).
Proof.
  unfold valid_binary, bounded, canonical_mantissa.
  intros H. apply andb_true_iff in H as [Hc _].
  apply Z.eqb_eq in Hc. change (fexp 53 1024) with Number.fexp64 in Hc.
  rewrite fexp64_eq in Hc. lia.
Qed.

Lemma SFleb_finite_value mx ex my ey :
  valid_binary 53 1024 (S754_finite false mx ex) = true ->
  valid_binary 53 1024 (S754_finite false my ey) = true ->
  SFleb (S754_finite false mx ex) (S754_finite false my ey) = true ->
  ex <= ey /\ Zpos mx <= Zpos my * 2 ^ (ey - ex).
Proof.
  intros Hvx Hvy. unfold SFleb, SFcompare.
  destruct (valid_finite_digits _ _ Hvx) as (Hdx & Hex & _).
  destruct (valid_finite_digits _ _ Hvy) as (_ & _ & Hdy).
  destruct (Z.compare_spec ex ey) as [Heq|Hlt|Hgt].
  - subst ey. rewrite Z.sub_diag, Z.mul_1_r.
    rewrite Pos.compare_cont_spec. simpl.
    destruct (Pos.compare_spec mx my) as [Hc|Hc|Hc]; intros Hleb;
      try discriminate; split; lia.
  - intros _. split; [lia|].
    pose proof (digits2_pos_bounds mx) as [_ Hux].
    pose proof (digits2_pos_bounds my) as [Hly _].
    rewrite Hdy in Hly by lia.
    assert (2 ^ Zpos (digits2_pos mx) <= 2 ^ 53)
      by (apply Z.pow_le_mono_r; lia).
    assert (2 ^ 1 <= 2 ^ (ey - ex)) by (apply Z.pow_le_mono_r; lia).
    change (2 ^ (53 - 1)) with 4503599627370496 in Hly.
    change (2 ^ 53) with 9007199254740992 in *.
    change (2 ^ 1) with 2 in *. nia.
  - discriminate.
Qed.

Lemma new_location_zero n : new_location n 0 = loc_Exact.
Proof. unfold new_location. destruct (Z.even n); reflexivity. Qed.

Lemma div_le_one mx ex my ey :
  ex <= ey -> Zpos mx <= Zpos my * 2 ^ (ey - ex) ->
  match Number.div (S754_finite false mx ex) (S754_finite false my ey) with
  | S754_zero s => s = false
  | S754_finite s m e => s = false /\ e <= 0 /\ Zpos m <= 1 * 2 ^ (- e)
  | _ => False
  end.
Proof.
  intros He Hle. unfold Number.div, SFdiv, SFdiv_core_binary.
  change (fexp prec emax) with Number.fexp64.
  set (e' := Z.min (Number.fexp64 _) (ex - ey)).
  assert (He' : e' <= ex - ey) by (subst e'; lia).
  set (s := ex - ey - e').
  assert (Hs : 0 <= s) by (subst s; lia).
  set (m' := match s with Z.pos _ => Z.shiftl (Zpos mx) s | 0 => Zpos mx | Z.neg _ => 0 end).
  assert (Hm' : m' = Zpos mx * 2 ^ s).
  { subst m'. destruct s as [|p|p] eqn:Hsp.
    - rewrite Z.mul_1_r. reflexivity.
    - apply Z.shiftl_mul_pow2. lia.
    - lia. }
  pose proof (Z_div_mod m' (Zpos my) eq_refl) as Hdm.
  destruct (Z.div_eucl m' (Zpos my)) as [q r]. destruct Hdm as [Hq Hr].
  assert (Hpow : 2 ^ (- e') = 2 ^ (ey - ex) * 2 ^ s).
  { rewrite <- Z.pow_add_r by lia. f_equal. subst s. lia. }
  assert (Hps : 0 < 2 ^ s) by (apply Z.pow_pos_nonneg; lia).
  assert (Hbound : q * Zpos my + r <= Zpos my * 2 ^ (- e')).
  { rewrite Hpow. nia. }
  assert (Hq0 : 0 <= q).
  { assert (0 <= m') by nia. nia. }
  apply (binary_round_aux_bound 1); try lia.
  - nia.
  - intros Heq. assert (r = 0) by nia. subst r. apply new_location_zero.
Qed.

Lemma of_Z_100 : Number.of_Z 100 = S754_finite false 7036874417766400 (-46).
Proof. reflexivity. Qed.

Lemma mul_100_le_100 m e :
  e <= 0 -> Zpos m <= 1 * 2 ^ (- e) ->
  match Number.mul (S754_finite false m e) (Number.of_Z 100) with
  | S754_zero s => s = false
  | S754_finite s m' e' => s = false /\ e' <= 0 /\ Zpos m' <= 100 * 2 ^ (- e')
  | _ => False
  end.
Proof.
  intros He Hm. rewrite of_Z_100. unfold Number.mul, SFmul.
  apply (binary_round_aux_bound 100); try lia.
  - replace (- (e + -46)) with (- e + 46) by lia.
    rewrite Z.pow_add_r by lia. rewrite Pos2Z.inj_mul.
    change (2 ^ 46) with 70368744177664. lia.
  - reflexivity.
Qed.

Lemma round_trips_upto_100 k : (k <= 100)%nat -> Number.round_trips k = true.
Proof.
  intros Hk.
  do 101 (destruct k as [|k]; [vm_compute; reflexivity|]).
  lia.
Qed.

Lemma to_integer_of_Z n :
  0 <= n <= 100 -> Number.to_integer (Number.of_Z n) = Some n.
Proof.
  intros Hn. pose proof (round_trips_upto_100 (Z.to_nat n)) as H.
  unfold Number.round_trips in H. rewrite Z2Nat.id in H by lia.
  destruct (Number.to_integer (Number.of_Z n)) as [z|].
  - f_equal. apply Z.eqb_eq. apply H. lia.
  - discriminate H. lia.
Qed.

Lemma Math_round_range m e :
  e <= 0 -> Zpos m <= 100 * 2 ^ (- e) ->
  exists k, Number.to_integer (Number.Math_round (S754_finite false m e)) = Some k /\
            0 <= k <= 100.
Proof.
  intros He Hm. unfold Number.Math_round.
  destruct (Z.leb_spec 0 e) as [H0|Hneg].
  - assert (e = 0) by lia. subst e. exists (Zpos m).
    simpl in *. split; [f_equal; lia|lia].
  - cbn [cond_Zopp].
    set (n := (2 * Zpos m + 2 ^ (- e)) / 2 ^ (- e + 1)).
    assert (Hp : 0 < 2 ^ (- e)) by (apply Z.pow_pos_nonneg; lia).
    assert (Hp1 : 2 ^ (- e + 1) = 2 * 2 ^ (- e)).
    { rewrite Z.pow_add_r by lia. lia. }
    assert (Hn : 0 <= n <= 100).
    { subst n. rewrite Hp1. split.
      - apply Z.div_pos; lia.
      - apply Z.lt_succ_r. apply Z.div_lt_upper_bound; lia. }
    destruct (Z.eqb_spec n 0) as [Hz|Hnz].
    + exists 0. split; [reflexivity|lia].
    + exists n. split; [apply to_integer_of_Z; lia|lia].
Qed.

Lemma progress_range (x y : number) :
  valid_binary 53 1024 x = true ->
  valid_binary 53 1024 y = true ->
  Number.is_finite y = true ->
  Number.leb (Number.of_Z 0) x = true ->
  Number.leb x y = true ->
  Number.ltb (Number.of_Z 0) y = true ->
  exists k,
    Number.to_integer
      (Number.Math_round (Number.mul (Number.div x y) (Number.of_Z 100))) = Some k /\
    0 <= k <= 100.
Proof.
  intros Hvx Hvy Hfin H0x Hxy H0y.
  destruct y as [sy| | |sy my ey]; try discriminate.
  destruct sy; [discriminate|].
  destruct x as [sx|sx| |sx mx ex]; try discriminate.
  - exists 0. split; [reflexivity|lia].
  - destruct sx; discriminate.
  - destruct sx; [discriminate|].
    destruct (SFleb_finite_value mx ex my ey Hvx Hvy Hxy) as [He Hle].
    pose proof (div_le_one mx ex my ey He Hle) as Hdiv.
    destruct (Number.div _ _) as [s| | |s m e]; try contradiction.
    + subst s. exists 0. split; [reflexivity|lia].
    + destruct Hdiv as (-> & He0 & Hm).
      pose proof (mul_100_le_100 m e He0 Hm) as Hmul.
      destruct (Number.mul _ _) as [s'| | |s' m' e']; try contradiction.
      * exists 0. split; [reflexivity|lia].
      * destruct Hmul as (-> & He' & Hm'). now apply Math_round_range.

Qed.

End Doubles.

(** ** Progress *)

(** C7, amended.  An event whose total is not computable makes no call to
    the callback; one whose total is computable makes exactly one call, with
    [Math.round((e.loaded / e.total) * 100)] computed in doubles.  When
    moreover [loaded] and [total] are finite doubles with
    [0 <= loaded <= total] and [0 < total], the argument is an integer
    between 0 and 100. *)
Theorem normalizeProgress_percentage (e : ProgressEvent) :
  (lengthComputable e = false -> Http.normalizeProgress e = []) ∧
  (lengthComputable e = true ->
   Http.normalizeProgress e
   = [Number.Math_round
        (Number.mul (Number.div (loaded e) (total e)) (Number.of_Z 100))]) ∧
  (lengthComputable e = true ->
   valid_binary prec emax (loaded e) = true ->
   valid_binary prec emax (total e) = true ->
   Number.is_finite (total e) = true ->
   Number.leb (Number.of_Z 0) (loaded e) = true ->
   Number.leb (loaded e) (total e) = true ->
   Number.ltb (Number.of_Z 0) (total e) = true ->
   exists percentage k,
     Http.normalizeProgress e = [percentage] ∧
     Number.to_integer percentage = Some k ∧ (0 <= k <= 100)%Z).
Proof.
  unfold Http.normalizeProgress.
  split; [by intros ->|]. split; [by intros ->|].
  intros -> Hvx Hvy Hfin H0x Hxy H0y.
  destruct (progress_range (loaded e) (total e) Hvx Hvy Hfin H0x Hxy H0y)
    as (k & Hk & Hrange).
  by eexists _, k.
Qed.

Lemma normalizeProgress_percentage_witness :
  Http.normalizeProgress progress_unknown_total = [] ∧
  exists percentage k,
    Http.normalizeProgress progress_29_of_200 = [percentage] ∧
    Number.to_integer percentage = Some k ∧ (0 <= k <= 100)%Z.
Proof.
  split.
  - apply (normalizeProgress_percentage progress_unknown_total). reflexivity.
  - apply (normalizeProgress_percentage progress_29_of_200); reflexivity.
Defined.

(** In doubles 29/200*100 is 14.499999999999998, so the callback gets 14. *)
Example normalizeProgress_29_of_200 :
  Http.normalizeProgress progress_29_of_200 = [Number.of_Z 14].
Proof. reflexivity. Qed.

(** C7 as stated fails for a computable event with [loaded > total]: the
    callback is called with 150.  Nothing in the code clamps. *)
Lemma normalizeProgress_above_100 :
  lengthComputable progress_3_of_2 = true ∧
  Http.normalizeProgress progress_3_of_2 = [Number.of_Z 150] ∧
  Number.to_integer (Number.of_Z 150) = Some 150%Z ∧
  ¬ (exists percentage k,
       Http.normalizeProgress progress_3_of_2 = [percentage] ∧
       Number.to_integer percentage = Some k ∧ (0 <= k <= 100)%Z).
Proof.
  split; [reflexivity|]. split; [reflexivity|]. split; [reflexivity|].
  intros (percentage & k & Hcall & Hk & Hrange).
  vm_compute in Hcall. injection Hcall as <-.
  vm_compute in Hk. injection Hk as <-. lia.
Qed.

(** With a zero total the callback is called with [NaN]. *)
Example normalizeProgress_zero_total :
  Http.normalizeProgress progress_0_of_0 = [S754_nan].
Proof. reflexivity. Qed.

(** ** A failing request, end to end *)

Lemma request_rejection_reaches_caller_unchanged_witness :
  configs (world_with bare_config) !! 0 = Some bare_config ∧
  exists promise cancelFn w1,
    Http.request 0 None (world_with bare_config)
      = Some (promise, cancelFn, w1) ∧
    let w3 := settle promise (Reject error_404) (catch promise (Caller "log") w1).2 in
    state_of promise w3 = Some (Settled (Reject error_404)) ∧
    exists d1 d2,
      jobs w3 = [Job OnError (Reject error_404) d1;
                 Job (Caller "log") (Reject error_404) d2].
Proof.
  split; [reflexivity|].
  destruct (request_rejection_reaches_caller_unchanged
              Axios.isCancel silent 0 None (world_with bare_config)
              bare_config "log" error_404 eq_refl)
    as (promise & cancelFn & w1 & Hreq & _ & _ & Hstate & Hjobs & _).
  exists promise, cancelFn, w1.
  split; [exact Hreq|]. split; [exact Hstate|exact Hjobs].
Defined.

(** The scenario of the README: a request fails with a 404, two listeners
    are registered, the caller attached a handler.  Both jobs run; the
    listeners get the error with kind [response], the caller's handler gets
    the same error, and the promise is still rejected with it. *)
Example failing_request_scenario :
  let run := Http.run_job Axios.isCancel silent 5 in
  let final :=
    '(promise, _, w1) ← Http.request 0 None (world_with bare_config);
    let w2 := (catch promise (Caller "log") w1).2 in
    let w3 := settle promise (Reject error_404) w2 in
    w4 ← run w3;
    w5 ← run w4;
    Some (state_of promise w5, calls w5, observed w5, jobs w5) in
  final = Some (Some (Settled (Reject error_404)),
                [Call 1 error_404 errorTypes.response;
                 Call 2 error_404 errorTypes.response],
                [("log", error_404)],
                []).
Proof. vm_compute. reflexivity. Qed.

(** * Further properties *)

(** ** The registry: more on [addErrorListener] and its closure *)

Lemma register_all_eq listeners ls :
  register_all listeners ls
  = (ls ++ listeners, (fun i => S (length ls + i)) <$> seq 0 (length listeners)).
Proof.
  unfold register_all.
  assert (Hgen : forall counts,
    foldl (fun '(ls, counts) listener =>
             let '(ls', count) := Http.addErrorListener listener ls in
             (ls', counts ++ [count])) (ls, counts) listeners
    = (ls ++ listeners,
       counts ++ ((fun i => S (length ls + i)) <$> seq 0 (length listeners)))).
  { revert ls. induction listeners as [|L listeners IH]; intros ls counts.
    - simpl. by rewrite !app_nil_r.
    - cbn [foldl]. rewrite addErrorListener_eq, IH.
      rewrite <- !app_assoc. simpl. f_equal. f_equal. f_equal.
      { lia. }
      rewrite length_app. simpl.
      rewrite <- (fmap_S_seq 0), <- list_fmap_compose.
      apply list_fmap_ext. intros _ i _. simpl. lia. }
  by rewrite Hgen.
Qed.

Lemma unsubscribe_all_rev_counts listeners ls :
  unsubscribe_all
    (rev ((fun i => S (length ls + i)) <$> seq 0 (length listeners)))
    (ls ++ listeners)
  = ls.
Proof.
  unfold unsubscribe_all.
  induction listeners as [|L listeners IH] using rev_ind.
  - simpl. by rewrite app_nil_r.
  - rewrite length_app. simpl.
    rewrite seq_app, fmap_app, rev_app_distr. simpl.
    rewrite unsubscribe_delete, app_assoc.
    replace (length ls + length listeners) with (length (ls ++ listeners))
      by (rewrite length_app; lia).
    rewrite delete_middle, app_nil_r. exact IH.
Qed.

(** X1.  [addErrorListener(L)] appends and its closure undoes it: the count
    the closure captures is the new length, [L] sits at position [count-1],
    every listener registered before keeps its position, and calling the
    closure right away gives back the registry as it was. *)
Theorem addErrorListener_appends (L : IErrorListener) (ls : list IErrorListener) :
  let '(registered, count) := Http.addErrorListener L ls in
  count = length registered ∧
  length registered = S (length ls) ∧
  registered !! (count - 1) = Some L ∧
  (forall i l, ls !! i = Some l -> registered !! i = Some l) ∧
  Http.unsubscribe count registered = ls.
Proof.
  rewrite addErrorListener_eq. cbn beta iota.
  rewrite length_app. cbn [length].
  split; [lia|]. split; [lia|]. split; [|split].
  - replace (S (length ls) - 1) with (length ls) by lia.
    by apply list_lookup_middle.
  - intros i l Hl. by apply lookup_app_l_Some.
  - rewrite unsubscribe_delete, delete_middle. apply app_nil_r.
Qed.

(** X2.  Closures called in the reverse of the registration order undo the
    registrations: after registering any listeners and then calling their
    closures last-registered first, the registry is what it was before. *)
Theorem unsubscribe_in_reverse_order_restores
    (listeners ls : list IErrorListener) :
  unsubscribe_all (rev (register_all listeners ls).2)
                  (register_all listeners ls).1
  = ls.
Proof.
  rewrite register_all_eq. simpl. apply unsubscribe_all_rev_counts.
Qed.

(** X3.  Closures called in registration order go wrong: after registering
    [A] and then [B], calling [A]'s closure and then [B]'s leaves [B]
    registered, because [B] has moved to the position [A]'s closure
    captured and [B]'s own captured position is now past the end. *)
Theorem unsubscribe_in_registration_order_keeps_second
    (A B : IErrorListener) (ls : list IErrorListener) :
  unsubscribe_all (register_all [A; B] ls).2 (register_all [A; B] ls).1
  = ls ++ [B].
Proof.
  rewrite register_all_eq. unfold unsubscribe_all. simpl.
  rewrite !unsubscribe_delete.
  replace (length ls + 0) with (length ls) by lia.
  rewrite delete_middle.
  rewrite delete_take_drop, take_ge, drop_ge
    by (rewrite length_app; simpl; lia).
  by rewrite app_nil_r.
Qed.

(** X4.  A call of an unsubscribe closure removes at most one listener and
    never reorders: the registry afterwards is a subsequence of the one
    before, at most one shorter; and a closure whose captured position lies
    past the end of the registry removes nothing. *)
Theorem unsubscribe_removes_at_most_one
    (count : nat) (ls : list IErrorListener) :
  Http.unsubscribe count ls `sublist_of` ls ∧
  length ls - 1 ≤ length (Http.unsubscribe count ls) ∧
  (length ls < count -> Http.unsubscribe count ls = ls).
Proof.
  unfold Http.unsubscribe, splice1.
  set (from := if (Z.of_nat count - 1 <? 0)%Z then _ else _).
  split; [apply sublist_delete|]. split.
  - destruct (ls !! Z.to_nat from) as [l|] eqn:Hl.
    + rewrite length_delete by eauto. lia.
    + apply lookup_ge_None_1 in Hl.
      rewrite delete_take_drop, take_ge, drop_ge by lia.
      rewrite app_nil_r. lia.
  - intros Hlt. subst from.
    destruct (Z.ltb_spec (Z.of_nat count - 1) 0) as [Hneg|_]; [lia|].
    rewrite Z.min_r by lia. rewrite Nat2Z.id.
    rewrite delete_take_drop, take_ge, drop_ge by lia.
    by rewrite app_nil_r.
Qed.

(** ** The fan-out: listeners that throw, unsubscribe or subscribe *)

Section FanOutEffects.

Variable isCancel : value -> bool.
Variable body : IErrorListener -> value -> TErrorType -> behaviour.

(** A stretch of [k] quiet listeners from index [i] on is called one after
    the other, at the cost of [k] units of fuel. *)
Lemma notify_quiet_run k fuel i ls error errorType made :
  Forall (quiet body) (take k (drop i ls)) ->
  i + k ≤ length ls ->
  Http.notify body fuel i ls error errorType made
  = if decide (fuel ≤ k) then None
    else Http.notify body (fuel - k) (i + k) ls error errorType
           (made ++ ((fun l => Call l error errorType) <$> take k (drop i ls))).
Proof.
  revert fuel i made. induction k as [|k IH]; intros fuel i made Hq Hlen.
  - destruct fuel as [|fuel]; [done|].
    rewrite decide_False by lia. simpl. rewrite app_nil_r.
    by replace (i + 0) with i by lia.
  - destruct (lookup_lt_is_Some_2 ls i) as [l Hl]; [lia|].
    rewrite (drop_S _ _ _ Hl) in Hq |- *. simpl in Hq |- *.
    apply Forall_cons in Hq as [Hquiet Hq].
    destruct fuel as [|fuel]; [done|].
    simpl. rewrite Hl, (Hquiet error errorType). simpl.
    rewrite IH by (done || lia).
    destruct (decide (fuel ≤ k)), (decide (S fuel ≤ S k)); try lia; [done|].
    replace (S i + k) with (i + S k) by lia.
    by rewrite <- app_assoc.
Qed.

(** At the end of the array the loop returns. *)
Lemma notify_at_end fuel ls error errorType made :
  Http.notify body (S fuel) (length ls) ls error errorType made
  = Some (ls, made, Normal ()).
Proof. simpl. by rewrite (lookup_ge_None_2 ls (length ls)). Qed.

(** From index [i] on, quiet listeners only: the loop calls them all and
    returns. *)
Lemma notify_quiet_rest fuel i ls error errorType made :
  Forall (quiet body) (drop i ls) ->
  i ≤ length ls ->
  length ls - i < fuel ->
  Http.notify body fuel i ls error errorType made
  = Some (ls, made ++ ((fun l => Call l error errorType) <$> drop i ls), Normal ()).
Proof.
  intros Hq Hi Hfuel.
  rewrite (notify_quiet_run (length ls - i)); [|by rewrite take_ge by (rewrite length_drop; lia)|lia].
  rewrite decide_False by lia.
  rewrite take_ge by (rewrite length_drop; lia).
  replace (i + (length ls - i)) with (length ls) by lia.
  destruct (fuel - (length ls - i)) as [|fuel'] eqn:Hf; [lia|].
  apply notify_at_end.
Qed.

Lemma perform_all_sublist effs ls :
  (forall other, Subscribe other ∉ effs) ->
  Http.perform_all effs ls `sublist_of` ls.
Proof.
  unfold Http.perform_all. revert ls.
  induction effs as [|eff effs IH]; intros ls Hno; simpl; [done|].
  etrans; [apply IH|].
  - intros other Hin. apply (Hno other). by right.
  - destruct eff as [count|other]; simpl.
    + unfold Http.unsubscribe, splice1. apply sublist_delete.
    + exfalso. apply (Hno other). by left.
Qed.

Lemma notify_terminates fuel i ls error errorType made :
  subscribes_nobody body ->
  length ls - i < fuel ->
  exists ls' made' c,
    Http.notify body fuel i ls error errorType made = Some (ls', made', c) ∧
    ls' `sublist_of` ls ∧
    length made' ≤ length made + (length ls - i).
Proof.
  intros Hno. revert i ls made.
  induction fuel as [|fuel IH]; intros i ls made Hfuel; [lia|].
  simpl. destruct (ls !! i) as [l|] eqn:Hl.
  - pose proof (lookup_lt_Some _ _ _ Hl) as Hi.
    pose proof (perform_all_sublist (effects (body l error errorType)) ls
                  (Hno l error errorType)) as Hsub.
    pose proof (sublist_length _ _ Hsub) as Hlen.
    destruct (throws (body l error errorType)) as [v|].
    + eexists _, _, _. split; [done|]. split; [done|].
      rewrite length_app. simpl. lia.
    + destruct (IH (S i) (Http.perform_all (effects (body l error errorType)) ls)
                  (made ++ [Call l error errorType])) as (ls' & made' & c & Hrun & Hsub' & Hmade);
        [lia|].
      exists ls', made', c. split; [done|]. split; [by etrans|].
      rewrite length_app in Hmade. simpl in Hmade. lia.
  - eexists _, _, _. split; [done|]. split; [done|]. lia.
Qed.

(** Once the loop stands on a listener that subscribes itself, with nothing
    but that listener after it, it never comes to an end. *)
Lemma notify_diverges L fuel i ls error errorType made :
  body L error errorType = Behaviour [Subscribe L] None ->
  i < length ls ->
  (forall j, i ≤ j -> j < length ls -> ls !! j = Some L) ->
  Http.notify body fuel i ls error errorType made = None.
Proof.
  intros HL. revert i ls made.
  induction fuel as [|fuel IH]; intros i ls made Hi Hall; [done|].
  simpl. rewrite (Hall i) by lia. rewrite HL. simpl.
  apply IH.
  - rewrite length_app. simpl. lia.
  - intros j Hj Hlen. rewrite length_app in Hlen. simpl in Hlen.
    destruct (decide (j < length ls)) as [Hin|Hout].
    + rewrite lookup_app_l by done. apply Hall; lia.
    + replace j with (length ls) by lia. by apply list_lookup_middle.
Qed.

End FanOutEffects.

(** X5.  A listener that throws ends the fan-out: the listeners registered
    before it have been called, in order, it has been called (and what it did
    to the registry before throwing stays done), the listeners after it are
    not called, and [onError] throws the very value the listener threw. *)
Theorem onError_stops_at_throwing_listener
    (isCancel : value -> bool)
    (body : IErrorListener -> value -> TErrorType -> behaviour)
    (fuel : nat) (before rest : list IErrorListener) (thrower : IErrorListener)
    (error thrown : value) (errorType : TErrorType) (effs : list effect) :
  Http.errorTypeOf isCancel error = Normal errorType ->
  Forall (quiet body) before ->
  body thrower error errorType = Behaviour effs (Some thrown) ->
  length before < fuel ->
  Http.onError isCancel body fuel (before ++ thrower :: rest) error
  = Some (Http.perform_all effs (before ++ thrower :: rest),
          ((fun l => Call l error errorType) <$> before)
            ++ [Call thrower error errorType],
          Throw (Thrown thrown)).
Proof.
  intros Hty Hq Hthrow Hfuel. unfold Http.onError. rewrite Hty.
  rewrite (notify_quiet_run body (length before));
    [|by rewrite drop_0, take_app_length|rewrite length_app; simpl; lia].
  rewrite decide_False by lia.
  rewrite drop_0, take_app_length. simpl.
  destruct (fuel - length before) as [|fuel'] eqn:Hf; [lia|].
  simpl. rewrite list_lookup_middle by done.
  by rewrite Hthrow.
Qed.

Lemma onError_stops_at_throwing_listener_witness :
  Http.errorTypeOf Axios.isCancel error_404 = Normal errorTypes.response ∧
  Forall (quiet first_throws) [] ∧
  first_throws 1 error_404 errorTypes.response
    = Behaviour [] (Some (VStr "boom")) ∧
  length ([] : list IErrorListener) < 1 ∧
  Http.onError Axios.isCancel first_throws 1 [1; 2; 3] error_404
  = Some ([1; 2; 3], [Call 1 error_404 errorTypes.response],
          Throw (Thrown (VStr "boom"))).
Proof.
  split; [reflexivity|]. split; [constructor|]. split; [reflexivity|].
  split; [simpl; lia|].
  apply (onError_stops_at_throwing_listener Axios.isCancel first_throws 1
           [] [2; 3] 1 error_404 (VStr "boom") errorTypes.response []);
    [reflexivity|constructor|reflexivity|simpl; lia].
Defined.

(** X6.  A listener that calls its own unsubscribe closure while it is being
    notified makes the fan-out skip the listener registered right after it:
    the array shifts under the iterator.  Whatever that next listener is, it
    is not called for this error, although it stays registered. *)
Theorem onError_self_unsubscribe_skips_the_next
    (isCancel : value -> bool)
    (body : IErrorListener -> value -> TErrorType -> behaviour)
    (fuel : nat) (before rest : list IErrorListener) (L next : IErrorListener)
    (error : value) (errorType : TErrorType) :
  Http.errorTypeOf isCancel error = Normal errorType ->
  Forall (quiet body) before ->
  Forall (quiet body) rest ->
  body L error errorType = Behaviour [Unsubscribe (S (length before))] None ->
  length (before ++ L :: next :: rest) ≤ fuel ->
  Http.onError isCancel body fuel (before ++ L :: next :: rest) error
  = Some (before ++ next :: rest,
          ((fun l => Call l error errorType) <$> before)
            ++ [Call L error errorType]
            ++ ((fun l => Call l error errorType) <$> rest),
          Normal ()).
Proof.
  intros Hty Hqb Hqr HL Hfuel. rewrite length_app in Hfuel. simpl in Hfuel.
  unfold Http.onError. rewrite Hty.
  rewrite (notify_quiet_run body (length before));
    [|by rewrite drop_0, take_app_length|rewrite length_app; simpl; lia].
  rewrite decide_False by lia.
  rewrite drop_0, take_app_length. simpl.
  destruct (fuel - length before) as [|fuel'] eqn:Hf; [lia|].
  simpl. rewrite list_lookup_middle by done.
  rewrite HL. simpl. rewrite unsubscribe_delete, delete_middle.
  rewrite notify_quiet_rest.
  - f_equal. f_equal. f_equal.
    rewrite (cons_middle next before rest), app_assoc.
    rewrite drop_app_length'; [|rewrite length_app; simpl; lia].
    by rewrite <- app_assoc.
  - rewrite (cons_middle next before rest), app_assoc.
    rewrite drop_app_length'; [done|rewrite length_app; simpl; lia].
  - rewrite length_app. simpl. lia.
  - rewrite length_app. simpl. lia.
Qed.

Lemma onError_self_unsubscribe_skips_the_next_witness :
  Http.errorTypeOf Axios.isCancel error_404 = Normal errorTypes.response ∧
  Forall (quiet first_unsubscribes) [] ∧
  Forall (quiet first_unsubscribes) [3] ∧
  first_unsubscribes 1 error_404 errorTypes.response
    = Behaviour [Unsubscribe 1] None ∧
  length [1; 2; 3] ≤ 3 ∧
  Http.onError Axios.isCancel first_unsubscribes 3 [1; 2; 3] error_404
  = Some ([2; 3],
          [Call 1 error_404 errorTypes.response;
           Call 3 error_404 errorTypes.response],
          Normal ()).
Proof.
  assert (Hq : Forall (quiet first_unsubscribes) [3]) by (repeat constructor).
  split; [reflexivity|]. split; [constructor|]. split; [exact Hq|].
  split; [reflexivity|]. split; [simpl; lia|].
  apply (onError_self_unsubscribe_skips_the_next Axios.isCancel
           first_unsubscribes 3 [] [3] 1 2 error_404 errorTypes.response);
    [reflexivity|constructor|exact Hq|reflexivity|simpl; lia].
Defined.

(** X7.  A listener registered during the fan-out is notified in the same
    fan-out: when [L] registers [M] while being called, [M] is appended to
    the live array and the loop reaches it after the listeners that were
    already there. *)
Theorem onError_calls_listener_subscribed_meanwhile
    (isCancel : value -> bool)
    (body : IErrorListener -> value -> TErrorType -> behaviour)
    (fuel : nat) (before rest : list IErrorListener) (L M : IErrorListener)
    (error : value) (errorType : TErrorType) :
  Http.errorTypeOf isCancel error = Normal errorType ->
  Forall (quiet body) before ->
  Forall (quiet body) rest ->
  quiet body M ->
  body L error errorType = Behaviour [Subscribe M] None ->
  length (before ++ L :: rest) + 1 < fuel ->
  Http.onError isCancel body fuel (before ++ L :: rest) error
  = Some ((before ++ L :: rest) ++ [M],
          ((fun l => Call l error errorType) <$> before)
            ++ [Call L error errorType]
            ++ ((fun l => Call l error errorType) <$> rest)
            ++ [Call M error errorType],
          Normal ()).
Proof.
  intros Hty Hqb Hqr HqM HL Hfuel. rewrite length_app in Hfuel. simpl in Hfuel.
  unfold Http.onError. rewrite Hty.
  rewrite (notify_quiet_run body (length before));
    [|by rewrite drop_0, take_app_length|rewrite length_app; simpl; lia].
  rewrite decide_False by lia.
  rewrite drop_0, take_app_length. simpl.
  destruct (fuel - length before) as [|fuel'] eqn:Hf; [lia|].
  simpl. rewrite list_lookup_middle by done.
  rewrite HL. simpl.
  assert (Hdrop : drop (S (length before)) ((before ++ L :: rest) ++ [M])
                  = rest ++ [M]).
  { rewrite <- app_assoc. simpl.
    rewrite (cons_middle L before (rest ++ [M])), app_assoc.
    rewrite drop_app_length'; [done|rewrite length_app; simpl; lia]. }
  rewrite notify_quiet_rest.
  - rewrite Hdrop, fmap_app. simpl. by rewrite <- !app_assoc.
  - rewrite Hdrop. apply Forall_app. split; [done|]. by constructor.
  - rewrite !length_app. simpl. lia.
  - rewrite !length_app. simpl. lia.
Qed.

Lemma onError_calls_listener_subscribed_meanwhile_witness :
  Http.errorTypeOf Axios.isCancel error_404 = Normal errorTypes.response ∧
  Forall (quiet first_subscribes) [] ∧
  Forall (quiet first_subscribes) [2] ∧
  quiet first_subscribes 9 ∧
  first_subscribes 1 error_404 errorTypes.response
    = Behaviour [Subscribe 9] None ∧
  length [1; 2] + 1 < 4 ∧
  Http.onError Axios.isCancel first_subscribes 4 [1; 2] error_404
  = Some ([1; 2; 9],
          [Call 1 error_404 errorTypes.response;
           Call 2 error_404 errorTypes.response;
           Call 9 error_404 errorTypes.response],
          Normal ()).
Proof.
  assert (Hq : Forall (quiet first_subscribes) [2]) by (repeat constructor).
  assert (Hq9 : quiet first_subscribes 9) by (intros ? ?; reflexivity).
  split; [reflexivity|]. split; [constructor|]. split; [exact Hq|].
  split; [exact Hq9|]. split; [reflexivity|]. split; [simpl; lia|].
  apply (onError_calls_listener_subscribed_meanwhile Axios.isCancel
           first_subscribes 4 [] [2] 1 9 error_404 errorTypes.response);
    [reflexivity|constructor|exact Hq|exact Hq9|reflexivity|simpl; lia].
Defined.

(** X8.  A listener that registers itself again whenever it is called makes
    [onError] loop for ever: every call appends it to the array the loop is
    walking, so the end is never reached, whatever the fuel. *)
Theorem onError_diverges_on_self_subscribing_listener
    (isCancel : value -> bool)
    (body : IErrorListener -> value -> TErrorType -> behaviour)
    (before rest : list IErrorListener) (L : IErrorListener)
    (error : value) (errorType : TErrorType) :
  Http.errorTypeOf isCancel error = Normal errorType ->
  Forall (quiet body) before ->
  Forall (quiet body) rest ->
  body L error errorType = Behaviour [Subscribe L] None ->
  forall fuel,
    Http.onError isCancel body fuel (before ++ L :: rest) error = None.
Proof.
  intros Hty Hqb Hqr HL fuel.
  unfold Http.onError. rewrite Hty.
  rewrite (notify_quiet_run body (length before));
    [|by rewrite drop_0, take_app_length|rewrite length_app; simpl; lia].
  destruct (decide (fuel ≤ length before)); [done|].
  rewrite drop_0, take_app_length. simpl.
  destruct (fuel - length before) as [|fuel'] eqn:Hf; [done|].
  simpl. rewrite list_lookup_middle by done.
  rewrite HL. simpl.
  assert (Hdrop : drop (S (length before)) ((before ++ L :: rest) ++ [L])
                  = rest ++ [L]).
  { rewrite <- app_assoc. simpl.
    rewrite (cons_middle L before (rest ++ [L])), app_assoc.
    rewrite drop_app_length'; [done|rewrite length_app; simpl; lia]. }
  rewrite (notify_quiet_run body (length rest));
    [|by rewrite Hdrop, take_app_length|rewrite !length_app; simpl; lia].
  destruct (decide (fuel' ≤ length rest)); [done|].
  apply (notify_diverges body L); [done| |].
  - rewrite !length_app. simpl. lia.
  - intros j Hj Hlen. rewrite !length_app in Hlen. simpl in Hlen.
    replace j with (length (before ++ L :: rest))
      by (rewrite length_app; simpl; lia).
    by apply list_lookup_middle.
Qed.

Lemma onError_diverges_on_self_subscribing_listener_witness :
  Http.errorTypeOf Axios.isCancel error_404 = Normal errorTypes.response ∧
  Forall (quiet first_resubscribes) [2] ∧
  first_resubscribes 1 error_404 errorTypes.response
    = Behaviour [Subscribe 1] None ∧
  Http.onError Axios.isCancel first_resubscribes 1000 [2; 1; 2] error_404 = None.
Proof.
  assert (Hq : Forall (quiet first_resubscribes) [2]) by (repeat constructor).
  split; [reflexivity|]. split; [exact Hq|]. split; [reflexivity|].
  apply (onError_diverges_on_self_subscribing_listener Axios.isCancel
           first_resubscribes [2] [2] 1 error_404 errorTypes.response);
    [reflexivity|exact Hq|exact Hq|reflexivity].
Defined.

(** X9.  When no listener registers listeners while being notified,
    [onError] comes to an end within [length + 1] steps, whatever the error
    and whatever else the listeners do (throw, unsubscribe): it makes at most
    as many calls as there are registered listeners, and the registry it
    leaves is a subsequence of the one it found. *)
Theorem onError_terminates_without_subscriptions
    (isCancel : value -> bool)
    (body : IErrorListener -> value -> TErrorType -> behaviour)
    (fuel : nat) (errorListeners : list IErrorListener) (error : value) :
  subscribes_nobody body ->
  length errorListeners < fuel ->
  exists errorListeners' made c,
    Http.onError isCancel body fuel errorListeners error
      = Some (errorListeners', made, c) ∧
    errorListeners' `sublist_of` errorListeners ∧
    length made ≤ length errorListeners.
Proof.
  intros Hno Hfuel. unfold Http.onError.
  destruct (Http.errorTypeOf isCancel error) as [errorType|e].
  - destruct (notify_terminates body fuel 0 errorListeners error errorType []
                Hno) as (ls' & made & c & Hrun & Hsub & Hmade); [lia|].
    exists ls', made, c. split; [done|]. split; [done|].
    simpl in Hmade. lia.
  - exists errorListeners, [], (Throw e). split; [done|]. split; [done|].
    simpl. lia.
Qed.

Lemma onError_terminates_without_subscriptions_witness :
  subscribes_nobody first_unsubscribes ∧
  length [1; 2; 3] < 4 ∧
  exists errorListeners' made c,
    Http.onError Axios.isCancel first_unsubscribes 4 [1; 2; 3] error_404
      = Some (errorListeners', made, c) ∧
    errorListeners' `sublist_of` [1; 2; 3] ∧
    length made ≤ length [1; 2; 3].
Proof.
  assert (Hno : subscribes_nobody first_unsubscribes).
  { intros listener error errorType other. unfold first_unsubscribes.
    destruct (decide (listener = 1)); simpl.
    - rewrite list_elem_of_singleton. discriminate.
    - apply not_elem_of_nil. }
  split; [exact Hno|]. split; [simpl; lia|].
  apply (onError_terminates_without_subscriptions Axios.isCancel
           first_unsubscribes 4 [1; 2; 3] error_404 Hno).
  simpl. lia.
Defined.

(** ** [isOwnError] *)

(** X10.  For a value other than [null] and [undefined], [isOwnError] does
    not throw and its result is truthy exactly when the value has a truthy
    [isAxiosError] or is a cancellation.  The result is not coerced to a
    boolean: it is the value of [isAxiosError] itself when that is truthy,
    and the boolean of [isCancel] only otherwise; in particular every
    cancellation is an own error. *)
Theorem isOwnError_truthy_iff_axios_error_or_cancel
    (isCancel : value -> bool) (v : value) :
  nullish v = false ->
  exists flag result,
    get v "isAxiosError" = Normal flag ∧
    Http.isOwnError isCancel v = Normal result ∧
    result = (if ToBoolean flag then flag else VBool (isCancel v)) ∧
    ToBoolean result = Spec.carries v "isAxiosError" || isCancel v ∧
    (isCancel v = true -> ToBoolean result = true).
Proof.
  intros Hnn. unfold Http.isOwnError, Spec.carries, Http.isCancel.
  destruct (get v "isAxiosError") as [a|e] eqn:Hget.
  - exists a, (if ToBoolean a then a else VBool (isCancel v)).
    simpl. destruct (ToBoolean a) eqn:Ha.
    + by rewrite Ha.
    + simpl. by destruct (isCancel v).
  - destruct v; discriminate.
Qed.

Lemma isOwnError_truthy_iff_axios_error_or_cancel_witness :
  nullish (VObj [("isAxiosError", VStr "yes")]) = false ∧
  Http.isOwnError Axios.isCancel (VObj [("isAxiosError", VStr "yes")])
    = Normal (VStr "yes").
Proof.
  split; [reflexivity|].
  destruct (isOwnError_truthy_iff_axios_error_or_cancel Axios.isCancel
              (VObj [("isAxiosError", VStr "yes")]) eq_refl)
    as (flag & result & Hflag & Hown & Hresult & _).
  injection Hflag as <-. rewrite Hown, Hresult. reflexivity.
Defined.

(** ** [convertToFormData]: the whole form *)

Section FormWhole.

Import FormData Http FormSpec.

Lemma has_app name fd1 fd2 : has name (fd1 ++ fd2) = has name fd1 || has name fd2.
Proof. unfold has. apply existsb_app. Qed.

Lemma has_written_entries name field :
  name ≠ written_name field -> has name (written_entries field) = false.
Proof.
  intros Hne. unfold written_entries.
  induction (written_values field) as [|v vs IH]; [done|].
  rewrite fmap_cons.
  change (has name ([(written_name field, v)]
                      ++ ((fun v => (written_name field, v)) <$> vs)) = false).
  rewrite has_app, IH, orb_false_r. unfold has. simpl.
  rewrite orb_false_r. apply String.eqb_neq. congruence.
Qed.

Lemma append_all_eq name items fd :
  foldl (fun fd item => append name item fd) fd items
  = fd ++ ((fun v => (name, v)) <$> items).
Proof.
  revert fd. induction items as [|item items IH]; intros fd; simpl.
  - by rewrite app_nil_r.
  - rewrite IH. unfold append. by rewrite <- app_assoc.
Qed.

Lemma add_field_fresh fd field :
  has (written_name field) fd = false ->
  add_field fd field = fd ++ written_entries field.
Proof.
  destruct field as [name v].
  unfold written_entries, written_name, written_values, add_field. simpl.
  destruct (as_list v) as [items|]; intros Hfresh.
  - apply append_all_eq.
  - unfold set. by rewrite Hfresh.
Qed.

Lemma foldl_add_field_fresh data fd :
  NoDup (written_name <$> data) ->
  Forall (fun field => has (written_name field) fd = false) data ->
  foldl add_field fd data = fd ++ (data ≫= written_entries).
Proof.
  revert fd. induction data as [|field data IH]; intros fd Hnodup Hfresh; simpl.
  - by rewrite app_nil_r.
  - rewrite fmap_cons in Hnodup. apply NoDup_cons in Hnodup as [Hnot Hnodup].
    apply Forall_cons in Hfresh as [Hfield Hfresh].
    rewrite add_field_fresh by done.
    rewrite IH; [by rewrite <- app_assoc|done|].
    apply Forall_forall. intros other Hother.
    rewrite has_app, (proj1 (Forall_forall _ _) Hfresh other Hother). simpl.
    apply has_written_entries. intros Heq. apply Hnot. rewrite <- Heq.
    by apply list_elem_of_fmap_2.
Qed.

Lemma replace_first_elem name v fd entry :
  entry ∈ replace_first name v fd -> entry = (name, v) ∨ entry ∈ fd.
Proof.
  induction fd as [|e fd IH]; simpl; [by right|].
  destruct (String.eqb e.1 name).
  - intros [->|Hin]%elem_of_cons; [by left|].
    apply list_elem_of_filter in Hin as [_ Hin]. right. by right.
  - intros [->|Hin]%elem_of_cons; [right; by left|].
    destruct (IH Hin) as [->|Hfd]; [by left|]. right. by right.
Qed.

Lemma add_field_elem fd field entry :
  entry ∈ add_field fd field ->
  entry ∈ fd ∨ (entry.1 = written_name field ∧ entry.2 ∈ written_values field).
Proof.
  destruct field as [name v].
  unfold written_name, written_values, add_field. simpl.
  destruct (as_list v) as [items|].
  - rewrite append_all_eq, elem_of_app.
    intros [Hin|Hin]; [by left|]. right.
    apply list_elem_of_fmap in Hin as (item & -> & Hitem). by simpl.
  - unfold set, append. destruct (has name fd).
    + intros [->|Hin]%replace_first_elem; [|by left].
      right. simpl. split; [done|]. by left.
    + rewrite elem_of_app, list_elem_of_singleton.
      intros [Hin| ->]; [by left|]. right. simpl. split; [done|]. by left.
Qed.

End FormWhole.

(** X11.  When no two fields of the payload write under the same entry
    name, [convertToFormData] produces exactly the entries of the fields,
    field after field in enumeration order: a list-valued field gives one
    entry [name[]] per element, in element order (none for an empty list),
    any other field gives the one entry [name]. *)
Theorem convertToFormData_whole_form
    (data : list (string * value)) (headers : value) :
  NoDup (FormSpec.written_name <$> data) ->
  Http.convertToFormData data headers = data ≫= written_entries.
Proof.
  intros Hnodup. unfold Http.convertToFormData.
  rewrite foldl_add_field_fresh; [done|done|].
  apply Forall_forall. by intros field _.
Qed.

Lemma convertToFormData_whole_form_witness :
  NoDup (FormSpec.written_name <$> upload_payload) ∧
  Http.convertToFormData upload_payload VUndefined
  = [("title", VStr "report");
     ("tags[]", VStr "a"); ("tags[]", VStr "b");
     ("files[]", VFile "p.png"); ("files[]", VFile "q.png");
     ("files[]", VFile "r.png")].
Proof.
  assert (Hnodup : NoDup (FormSpec.written_name <$> upload_payload))
    by compute_done.
  split; [exact Hnodup|].
  rewrite (convertToFormData_whole_form upload_payload VUndefined Hnodup).
  reflexivity.
Defined.

Lemma foldl_add_field_elem data fd entry :
  entry ∈ foldl Http.add_field fd data ->
  entry ∈ fd ∨
  exists field, field ∈ data ∧ entry.1 = FormSpec.written_name field ∧
                entry.2 ∈ FormSpec.written_values field.
Proof.
  revert fd. induction data as [|field data IH]; intros fd; simpl.
  - by left.
  - intros Hin. destruct (IH _ Hin) as [Hfd|(other & Hother & Hname & Hval)].
    + destruct (add_field_elem _ _ _ Hfd) as [Hold|[Hname Hval]]; [by left|].
      right. exists field. split; [by left|done].
    + right. exists other. split; [by right|done].
Qed.

(** X12.  [convertToFormData] invents no entry names, whatever the payload
    (also when names clash): every entry of the form is named [f[]] for some
    list-valued field [f] of the payload, or [f] for some other field [f]
    of the payload. *)
Theorem convertToFormData_entry_names_come_from_payload
    (data : list (string * value)) (headers : value) (entry : string * value) :
  entry ∈ Http.convertToFormData data headers ->
  exists name v,
    (name, v) ∈ data ∧
    entry.1 = match Http.as_list v with
              | Some _ => name +:+ "[]"
              | None => name
              end.
Proof.
  intros Hin. unfold Http.convertToFormData in Hin.
  destruct (foldl_add_field_elem _ _ _ Hin)
    as [Hempty|([name v] & Hfield & Hname & _)].
  - by apply elem_of_nil in Hempty.
  - exists name, v. split; [done|]. exact Hname.
Qed.

Lemma convertToFormData_entry_names_come_from_payload_witness :
  ("tags[]", VStr "b") ∈ Http.convertToFormData upload_payload VUndefined ∧
  exists name v,
    (name, v) ∈ upload_payload ∧
    "tags[]" = match Http.as_list v with
               | Some _ => name +:+ "[]"
               | None => name
               end.
Proof.
  assert (Hin : ("tags[]", VStr "b")
                ∈ Http.convertToFormData upload_payload VUndefined).
  { vm_compute. do 2 right. left. }
  split; [exact Hin|].
  exact (convertToFormData_entry_names_come_from_payload
           upload_payload VUndefined ("tags[]", VStr "b") Hin).
Defined.

(** ** [normalizeProgress]: the ends of the scale and a zero total *)

Section ProgressEnds.

Local Open Scope Z_scope.

Lemma div_eucl_mul_l (m k : Z) : 0 < m -> Z.div_eucl (m * k) m = (k, 0).
Proof.
  intros Hm.
  pose proof (Z_div_mod (m * k) m ltac:(lia)) as Hdm.
  destruct (Z.div_eucl (m * k) m) as [q r]. destruct Hdm as [Heq Hr].
  assert (Hq : q = k) by nia. subst q. f_equal. lia.
Qed.

Lemma SFdiv_core_same (m : positive) (e : Z) :
  SFdiv_core_binary prec emax (Zpos m) e (Zpos m) e
  = (2 ^ 53, -53, loc_Exact).
Proof.
  unfold SFdiv_core_binary.
  rewrite !Z.sub_diag.
  change (Z.min (fexp prec emax 0) 0) with (-53).
  change (0 - -53) with 53.
  cbv iota beta.
  rewrite Z.shiftl_mul_pow2 by lia.
  rewrite div_eucl_mul_l by lia.
  by rewrite new_location_zero.
Qed.

Lemma div_same s (m : positive) (e : Z) :
  Number.div (S754_finite s m e) (S754_finite s m e) = Number.of_Z 1.
Proof.
  unfold Number.div, SFdiv. rewrite SFdiv_core_same.
  by destruct s.
Qed.

End ProgressEnds.

(** X13.  [normalizeProgress] does not look at [total] itself: an event that
    says [lengthComputable] with a zero total still calls the callback, with
    [NaN] when [loaded] is zero (or [NaN]) and with an infinity otherwise,
    not with a percentage. *)
Theorem normalizeProgress_zero_total_gives_no_percentage
    (e : ProgressEvent) (sign : bool) :
  lengthComputable e = true ->
  total e = S754_zero sign ->
  Http.normalizeProgress e
  = [match loaded e with
     | S754_zero _ | S754_nan => S754_nan
     | S754_infinity s | S754_finite s _ _ => S754_infinity (xorb s sign)
     end].
Proof.
  intros Hc Htotal. unfold Http.normalizeProgress. rewrite Hc, Htotal.
  destruct (loaded e) as [s|s| |s m ex]; try reflexivity.
  - by destruct s, sign.
  - by destruct s, sign.
Qed.

Lemma normalizeProgress_zero_total_gives_no_percentage_witness :
  lengthComputable progress_0_of_0 = true ∧
  total progress_0_of_0 = S754_zero false ∧
  Http.normalizeProgress progress_0_of_0 = [S754_nan].
Proof.
  split; [reflexivity|]. split; [reflexivity|].
  apply (normalizeProgress_zero_total_gives_no_percentage progress_0_of_0 false);
    reflexivity.
Defined.

(** X14.  The ends of the scale are exact, for every finite non-zero total:
    nothing loaded gives zero, and [loaded] equal to [total] gives exactly
    100 (the quotient is exactly 1 in doubles, whatever the total). *)
Theorem normalizeProgress_ends
    (e : ProgressEvent) (s : bool) (m : positive) (ex : Z) :
  lengthComputable e = true ->
  total e = S754_finite s m ex ->
  (forall s0, loaded e = S754_zero s0 ->
     Http.normalizeProgress e = [S754_zero (xorb s0 s)]) ∧
  (loaded e = total e -> Http.normalizeProgress e = [Number.of_Z 100]).
Proof.
  intros Hc Htotal. unfold Http.normalizeProgress. rewrite Hc. split.
  - intros s0 ->. rewrite Htotal. by destruct s0, s.
  - intros ->. rewrite Htotal, div_same. reflexivity.
Qed.

Lemma normalizeProgress_ends_witness :
  lengthComputable progress_7_of_7 = true ∧
  total progress_7_of_7 = S754_finite false 7881299347898368 (-50) ∧
  Http.normalizeProgress progress_7_of_7 = [Number.of_Z 100].
Proof.
  split; [reflexivity|]. split; [reflexivity|].
  by apply (normalizeProgress_ends progress_7_of_7 false 7881299347898368 (-50)).
Defined.

(** ** [request]: tokens, hooks and the failure path *)

Section RequestMore.

Import Http RequestSpec.

Variable isCancel : value -> bool.
Variable body : IErrorListener -> value -> TErrorType -> behaviour.

Lemma settle_grows p o w :
  tokens (settle p o w) = tokens w ∧
  length (promises (settle p o w)) = length (promises w).
Proof.
  unfold settle. destruct (promises w !! p) as [[[|o'] rs]|]; simpl; try done.
  by rewrite length_insert.
Qed.

Lemma catch_grows p h w :
  tokens (catch p h w).2 = tokens w ∧
  length (promises w) ≤ length (promises (catch p h w).2).
Proof.
  unfold catch, new_promise. simpl.
  destruct ((promises w ++ [Promise Pending []]) !! p) as [[[|o'] rs]|]; simpl;
    rewrite ?length_insert, length_app; simpl; split; (done || lia).
Qed.

Lemma run_job_grows fuel w w' :
  run_job isCancel body fuel w = Some w' ->
  tokens w' = tokens w ∧ length (promises w') = length (promises w).
Proof.
  assert (Hsettle : forall d o w0,
            tokens w0 = tokens w -> length (promises w0) = length (promises w) ->
            tokens (settle d o w0) = tokens w ∧
            length (promises (settle d o w0)) = length (promises w)).
  { intros d o w0 Ht Hl. destruct (settle_grows d o w0) as [-> ->]. done. }
  unfold run_job. destruct (jobs w) as [|[h o d] rest]; [done|].
  destruct o as [v|reason].
  - intros [= <-]. by apply Hsettle.
  - destruct h as [|name].
    + simpl.
      destruct (onError isCancel body fuel (errorListeners w) reason)
        as [[[ls made] [[]|e]]|]; intros [= <-]; by apply Hsettle.
    + intros [= <-]. by apply Hsettle.
Qed.

Lemma request_tokens config onProgress w promise cancelFn w' :
  request config onProgress w = Some (promise, cancelFn, w') ->
  tokens w' = S (tokens w).
Proof.
  unfold request. destruct (configs w !! config) as [content|] eqn:Hc; [|done].
  simpl. unfold Axios.request.
  rewrite (install_hooks_lookup _ _ _ _ Hc). simpl.
  destruct (install_hooks_rest config onProgress w)
    as (_ & _ & _ & _ & _ & _ & Ht).
  destruct (catch _ OnError _) as [d w2] eqn:Hcatch.
  intros [= <- <- <-].
  pose proof (catch_grows (length (promises (install_hooks config onProgress w)))
                OnError
                (log_submitted (config, hooked content (tokens w) onProgress,
                                length (promises (install_hooks config onProgress w)))
                   (new_promise (install_hooks config onProgress w)).2)) as [Htok _].
  unfold new_promise in Htok. simpl in Htok. simpl in Hcatch.
  rewrite Hcatch in Htok. simpl in Htok. by rewrite Htok.
Qed.

Lemma step_grows w w' :
  step isCancel body w w' ->
  tokens w ≤ tokens w' ∧ length (promises w) ≤ length (promises w').
Proof.
  intros Hstep. destruct Hstep as
    [config onProgress w promise cancelFn w' Hreq|p h w|p o w|fuel w w' Hjob|eff w].
  - rewrite (request_tokens _ _ _ _ _ _ Hreq).
    apply request_inv in Hreq as (content & _ & _ & _ & _ & Hp & _).
    rewrite Hp, length_app. simpl. lia.
  - destruct (catch_grows p h w). lia.
  - destruct (settle_grows p o w). lia.
  - destruct (run_job_grows _ _ _ Hjob). lia.
  - done.
Qed.

Lemma steps_grow w w' :
  rtc (step isCancel body) w w' ->
  tokens w ≤ tokens w' ∧ length (promises w) ≤ length (promises w').
Proof.
  intros Hsteps. induction Hsteps as [|w1 w2 w3 Hstep _ IH]; [done|].
  destruct (step_grows _ _ Hstep). lia.
Qed.

End RequestMore.

Section RequestHooksMore.

Import Http RequestSpec.



End RequestHooksMore.

(** X15.  Every call of [request] gets a cancel function and a promise of
    its own: for two calls, whatever happens in between and even on the same
    configuration object, the later call's token and promise differ from the
    earlier call's. *)
Theorem request_handles_are_fresh
    (isCancel : value -> bool)
    (body : IErrorListener -> value -> TErrorType -> behaviour)
    (config1 config2 : nat) (onProgress1 onProgress2 : option string)
    (w w1 w2 w3 : World) (promise1 cancelFn1 promise2 cancelFn2 : nat) :
  Http.request config1 onProgress1 w = Some (promise1, cancelFn1, w1) ->
  rtc (Http.step isCancel body) w1 w2 ->
  Http.request config2 onProgress2 w2 = Some (promise2, cancelFn2, w3) ->
  cancelFn1 < cancelFn2 ∧ promise1 < promise2 ∧
  read config2 "cancelToken" w3 = VCancelToken cancelFn2.
Proof.
  intros Hreq1 Hsteps Hreq2.
  pose proof (request_tokens _ _ _ _ _ _ Hreq1) as Ht1.
  apply request_inv in Hreq1 as (c1 & _ & -> & -> & _ & Hp1 & _).
  apply request_inv in Hreq2 as (c2 & Hc2 & -> & -> & Hconfigs & _).
  destruct (steps_grow isCancel body _ _ Hsteps) as [Htok Hlen].
  rewrite Hp1, length_app in Hlen. simpl in Hlen.
  split; [lia|]. split; [lia|].
  unfold read. rewrite Hconfigs, (install_hooks_lookup _ _ _ _ Hc2).
  unfold field. by rewrite hooked_cancelToken.
Qed.

Lemma request_handles_are_fresh_witness :
  exists promise1 cancelFn1 w1 promise2 cancelFn2 w2,
    Http.request 0 None (world_with bare_config) = Some (promise1, cancelFn1, w1) ∧
    Http.request 0 None w1 = Some (promise2, cancelFn2, w2) ∧
    cancelFn1 < cancelFn2 ∧ promise1 < promise2.
Proof.
  destruct (Http.request 0 None (world_with bare_config))
    as [[[promise1 cancelFn1] w1]|] eqn:Hreq1; [|by vm_compute in Hreq1].
  destruct (Http.request 0 None w1)
    as [[[promise2 cancelFn2] w2]|] eqn:Hreq2.
  - exists promise1, cancelFn1, w1, promise2, cancelFn2, w2.
    destruct (request_handles_are_fresh Axios.isCancel silent 0 0 None None
                _ w1 w1 w2 _ _ _ _ Hreq1 (rtc_refl _ _) Hreq2) as (Ht & Hp & _).
    done.
  - exfalso. injection Hreq1 as _ _ <-. by vm_compute in Hreq2.
Defined.

(** X16.  The progress hooks follow [onProgress]: when it is given,
    [request] sets both [onDownloadProgress] and [onUploadProgress] to the
    same relay to that callback, replacing handlers the caller had put
    there; when it is not given, both fields are left as the caller had
    them. *)
Theorem request_progress_hooks
    (config : nat) (onProgress : option string) (w : World)
    (content : gmap string value) :
  configs w !! config = Some content ->
  exists promise cancelFn w' content',
    Http.request config onProgress w = Some (promise, cancelFn, w') ∧
    configs w' !! config = Some content' ∧
    match onProgress with
    | Some callback =>
      content' !! "onDownloadProgress" = Some (VFun (Fn_progress callback)) ∧
      content' !! "onUploadProgress" = Some (VFun (Fn_progress callback))
    | None =>
      content' !! "onDownloadProgress" = content !! "onDownloadProgress" ∧
      content' !! "onUploadProgress" = content !! "onUploadProgress"
    end.
Proof.
  intros Hc.
  destruct (request_Some config onProgress w content Hc)
    as [[[promise cancelFn] w'] Hreq].
  exists promise, cancelFn, w'.
  exists (RequestSpec.hooked content (tokens w) onProgress).
  split; [exact Hreq|].
  apply request_inv in Hreq as (content0 & Hc0 & -> & -> & Hconfigs & _).
  rewrite Hconfigs, (install_hooks_lookup _ _ _ _ Hc).
  split; [done|].
  destruct onProgress as [callback|].
  - apply hooked_progress.
  - apply hooked_progress_absent.
Qed.

Lemma request_progress_hooks_witness :
  configs (world_with progress_config) !! 0 = Some progress_config ∧
  exists promise cancelFn w' content',
    Http.request 0 (Some "bar") (world_with progress_config)
      = Some (promise, cancelFn, w') ∧
    configs w' !! 0 = Some content' ∧
    content' !! "onDownloadProgress" = Some (VFun (Fn_progress "bar")) ∧
    content' !! "onUploadProgress" = Some (VFun (Fn_progress "bar")).
Proof.
  split; [reflexivity|].
  destruct (request_progress_hooks 0 (Some "bar") (world_with progress_config)
              progress_config eq_refl)
    as (promise & cancelFn & w' & content' & Hreq & Hc' & Hdown & Hup).
  exists promise, cancelFn, w', content'. done.
Defined.



(** X18.  [request] itself notifies nobody: it leaves the listener registry,
    the record of listener calls and the job queue as they are, touches no
    promise that existed, and the promise it returns is a new one, still
    pending when [request] returns. *)
Theorem request_notifies_nobody
    (config : nat) (onProgress : option string) (w : World)
    (content : gmap string value) :
  configs w !! config = Some content ->
  exists promise cancelFn w',
    Http.request config onProgress w = Some (promise, cancelFn, w') ∧
    errorListeners w' = errorListeners w ∧
    calls w' = calls w ∧
    jobs w' = jobs w ∧
    observed w' = observed w ∧
    state_of promise w = None ∧
    state_of promise w' = Some Pending ∧
    (forall p s, state_of p w = Some s -> state_of p w' = Some s).
Proof.
  intros Hc.
  destruct (request_Some config onProgress w content Hc)
    as [[[promise cancelFn] w'] Hreq].
  exists promise, cancelFn, w'. split; [exact Hreq|].
  apply request_inv in Hreq
    as (content0 & _ & -> & -> & _ & Hp & Hj & Hl & Hcalls & Ho & _).
  repeat split; try done.
  - unfold state_of. by rewrite lookup_ge_None_2.
  - unfold state_of. rewrite Hp. by rewrite list_lookup_middle.
  - intros p s. unfold state_of. rewrite Hp.
    destruct (promises w !! p) as [pr|] eqn:Hpr; [|done].
    by rewrite (lookup_app_l_Some _ _ _ _ Hpr).
Qed.

Lemma request_notifies_nobody_witness :
  configs (world_with bare_config) !! 0 = Some bare_config ∧
  exists promise cancelFn w',
    Http.request 0 None (world_with bare_config) = Some (promise, cancelFn, w') ∧
    errorListeners w' = [1; 2] ∧ calls w' = [] ∧ jobs w' = [] ∧
    state_of promise w' = Some Pending.
Proof.
  split; [reflexivity|].
  destruct (request_notifies_nobody 0 None (world_with bare_config)
              bare_config eq_refl)
    as (promise & cancelFn & w' & Hreq & Hl & Hcalls & Hj & _ & _ & Hpending & _).
  exists promise, cancelFn, w'. done.
Defined.

Section FailurePath.

Import Http.

Variable isCancel : value -> bool.
Variable body : IErrorListener -> value -> TErrorType -> behaviour.

(** The world right after [request] and a settlement of its promise, when
    no other job was waiting. *)
Lemma settled_request config onProgress w promise cancelFn w1 o :
  jobs w = [] ->
  request config onProgress w = Some (promise, cancelFn, w1) ->
  let w2 := settle promise o w1 in
  jobs w2 = [Job OnError o (S promise)] ∧
  promises w2
    = promises w ++ [Promise (Settled o) []; Promise Pending []] ∧
  errorListeners w2 = errorListeners w ∧
  calls w2 = calls w.
Proof.
  intros Hjobs Hreq w2.
  apply request_inv in Hreq
    as (content & _ & -> & -> & _ & Hp & Hj & Hl & Hcalls & _).
  subst w2. unfold settle.
  rewrite Hp, list_lookup_middle by done. simpl.
  rewrite Hj, Hjobs, Hp, Hl, Hcalls. simpl.
  repeat split; try done.
  replace (length (promises w)) with (length (promises w) + 0) at 1 by lia.
  by rewrite insert_app_r.
Qed.

Lemma settle_second n o' o (ps : list Promise.t) (w : World) :
  promises w = ps ++ [Promise (Settled o') []; Promise Pending []] ->
  n = length ps ->
  promises (settle (S n) o w)
    = ps ++ [Promise (Settled o') []; Promise (Settled o) []] ∧
  jobs (settle (S n) o w) = jobs w ∧
  errorListeners (settle (S n) o w) = errorListeners w ∧
  calls (settle (S n) o w) = calls w.
Proof.
  intros Hp ->.
  assert (Hsplit : promises w
                   = (ps ++ [Promise (Settled o') []]) ++ [Promise Pending []])
    by (by rewrite Hp, <- app_assoc).
  assert (Hlen : S (length ps) = length (ps ++ [Promise (Settled o') []]))
    by (rewrite length_app; simpl; lia).
  assert (Hlook : promises w !! S (length ps) = Some (Promise Pending [])).
  { rewrite Hsplit, Hlen. by apply list_lookup_middle. }
  unfold settle. rewrite Hlook. simpl. rewrite app_nil_r.
  repeat split; try done.
  rewrite Hsplit, Hlen.
  replace (length (ps ++ [Promise (Settled o') []]))
    with (length (ps ++ [Promise (Settled o') []]) + 0) by lia.
  rewrite insert_app_r. simpl. by rewrite <- app_assoc.
Qed.

End FailurePath.

(** X19.  A rejection runs [onError] exactly once, as the one job the
    rejection queues: the listeners' calls are those of [onError(reason)],
    the caller's promise stays rejected with [reason], and the promise that
    [promise.catch(that.onError)] derived, which nobody holds, is fulfilled
    with [undefined] when [onError] returns, and is rejected with what
    [onError] threw when a listener throws or the reason is [null]. *)
Theorem rejected_request_runs_onError_once
    (isCancel : value -> bool)
    (body : IErrorListener -> value -> TErrorType -> behaviour)
    (config : nat) (onProgress : option string) (w : World)
    (content : gmap string value) (reason : value) (fuel : nat)
    (ls' : list IErrorListener) (made : list call) (c : completion ()) :
  configs w !! config = Some content ->
  jobs w = [] ->
  Http.onError isCancel body fuel (errorListeners w) reason = Some (ls', made, c) ->
  exists promise cancelFn w1 w2,
    Http.request config onProgress w = Some (promise, cancelFn, w1) ∧
    Http.run_job isCancel body fuel (settle promise (Reject reason) w1) = Some w2 ∧
    errorListeners w2 = ls' ∧
    calls w2 = calls w ++ made ∧
    jobs w2 = [] ∧
    state_of promise w2 = Some (Settled (Reject reason)) ∧
    state_of (S promise) w2
      = Some (Settled match c with
                      | Normal _ => Fulfil VUndefined
                      | Throw e => Reject (Http.thrown_value e)
                      end).
Proof.
  intros Hc Hjobs Hrun.
  destruct (request_Some config onProgress w content Hc)
    as [[[promise cancelFn] w1] Hreq].
  destruct (settled_request config onProgress w promise cancelFn w1
              (Reject reason) Hjobs Hreq) as (Hj & Hp & Hl & Hcalls).
  apply request_inv in Hreq as Hinv.
  destruct Hinv as (_ & _ & Hpromise & _).
  set (w2 := settle promise (Reject reason) w1) in *.
  set (outcome := match c with
                  | Normal _ => Fulfil VUndefined
                  | Throw e => Reject (Http.thrown_value e)
                  end).
  set (w3 := set_listeners ls' made (set_jobs (fun _ => []) w2)).
  assert (Hjob : Http.run_job isCancel body fuel w2
                 = Some (settle (S promise) outcome w3)).
  { unfold Http.run_job. rewrite Hj. simpl. rewrite Hl, Hrun.
    subst outcome. by destruct c as [[]|e]. }
  destruct (settle_second promise (Reject reason) outcome (promises w) w3)
    as (Hp3 & Hj3 & Hl3 & Hc3); [done|done|].
  exists promise, cancelFn, w1, (settle (S promise) outcome w3).
  split; [done|]. split; [done|].
  rewrite Hl3, Hc3, Hj3. simpl. rewrite Hcalls.
  repeat split; try done.
  - unfold state_of. rewrite Hp3, Hpromise. by rewrite list_lookup_middle.
  - unfold state_of. rewrite Hp3, Hpromise.
    rewrite (cons_middle _ (promises w)), app_assoc.
    rewrite list_lookup_middle; [done|]. rewrite length_app. simpl. lia.
Qed.

Lemma rejected_request_runs_onError_once_witness :
  configs (world_with bare_config) !! 0 = Some bare_config ∧
  jobs (world_with bare_config) = [] ∧
  Http.onError Axios.isCancel first_throws 5 [1; 2] error_404
    = Some ([1; 2], [Call 1 error_404 errorTypes.response],
            Throw (Thrown (VStr "boom"))) ∧
  exists promise cancelFn w1 w2,
    Http.request 0 None (world_with bare_config) = Some (promise, cancelFn, w1) ∧
    Http.run_job Axios.isCancel first_throws 5
      (settle promise (Reject error_404) w1) = Some w2 ∧
    calls w2 = [Call 1 error_404 errorTypes.response] ∧
    state_of promise w2 = Some (Settled (Reject error_404)) ∧
    state_of (S promise) w2 = Some (Settled (Reject (VStr "boom"))).
Proof.
  split; [reflexivity|]. split; [reflexivity|]. split; [reflexivity|].
  destruct (rejected_request_runs_onError_once Axios.isCancel first_throws
              0 None (world_with bare_config) bare_config error_404 5
              [1; 2] [Call 1 error_404 errorTypes.response]
              (Throw (Thrown (VStr "boom"))) eq_refl eq_refl eq_refl)
    as (promise & cancelFn & w1 & w2 & Hreq & Hjob & _ & Hcalls & _ & Hp & Hd).
  exists promise, cancelFn, w1, w2. done.
Defined.

(** X20.  A request that succeeds notifies nobody: the job its fulfilment
    queues passes the value through the [catch], no listener is called and
    the registry is untouched, whatever the listeners would do. *)
Theorem fulfilled_request_notifies_nobody
    (isCancel : value -> bool)
    (body : IErrorListener -> value -> TErrorType -> behaviour)
    (config : nat) (onProgress : option string) (w : World)
    (content : gmap string value) (response : value) (fuel : nat) :
  configs w !! config = Some content ->
  jobs w = [] ->
  exists promise cancelFn w1 w2,
    Http.request config onProgress w = Some (promise, cancelFn, w1) ∧
    Http.run_job isCancel body fuel (settle promise (Fulfil response) w1) = Some w2 ∧
    errorListeners w2 = errorListeners w ∧
    calls w2 = calls w ∧
    jobs w2 = [] ∧
    state_of promise w2 = Some (Settled (Fulfil response)) ∧
    state_of (S promise) w2 = Some (Settled (Fulfil response)).
Proof.
  intros Hc Hjobs.
  destruct (request_Some config onProgress w content Hc)
    as [[[promise cancelFn] w1] Hreq].
  destruct (settled_request config onProgress w promise cancelFn w1
              (Fulfil response) Hjobs Hreq) as (Hj & Hp & Hl & Hcalls).
  apply request_inv in Hreq as Hinv.
  destruct Hinv as (_ & _ & Hpromise & _).
  set (w2 := settle promise (Fulfil response) w1) in *.
  set (w3 := set_jobs (fun _ => []) w2).
  assert (Hjob : Http.run_job isCancel body fuel w2
                 = Some (settle (S promise) (Fulfil response) w3)).
  { unfold Http.run_job. by rewrite Hj. }
  destruct (settle_second promise (Fulfil response) (Fulfil response)
              (promises w) w3) as (Hp3 & Hj3 & Hl3 & Hc3); [done|done|].
  exists promise, cancelFn, w1, (settle (S promise) (Fulfil response) w3).
  split; [done|]. split; [done|].
  rewrite Hl3, Hc3, Hj3. simpl.
  repeat split; try done.
  - unfold state_of. rewrite Hp3, Hpromise. by rewrite list_lookup_middle.
  - unfold state_of. rewrite Hp3, Hpromise.
    rewrite (cons_middle _ (promises w)), app_assoc.
    rewrite list_lookup_middle; [done|]. rewrite length_app. simpl. lia.
Qed.

Lemma fulfilled_request_notifies_nobody_witness :
  configs (world_with bare_config) !! 0 = Some bare_config ∧
  jobs (world_with bare_config) = [] ∧
  exists promise cancelFn w1 w2,
    Http.request 0 None (world_with bare_config) = Some (promise, cancelFn, w1) ∧
    Http.run_job Axios.isCancel first_throws 0
      (settle promise (Fulfil (VStr "ok")) w1) = Some w2 ∧
    calls w2 = [] ∧
    state_of promise w2 = Some (Settled (Fulfil (VStr "ok"))).
Proof.
  split; [reflexivity|]. split; [reflexivity|].
  destruct (fulfilled_request_notifies_nobody Axios.isCancel first_throws
              0 None (world_with bare_config) bare_config (VStr "ok") 0
              eq_refl eq_refl)
    as (promise & cancelFn & w1 & w2 & Hreq & Hjob & _ & Hcalls & _ & Hp & _).
  exists promise, cancelFn, w1, w2. done.
Defined.

(** ** Registration order is notification order *)

(** X21.  Listeners are notified in the order in which they were
    registered: after any number of [addErrorListener] calls on top of an
    existing registry, a failure notifies the listeners that were there
    first, then the new ones in the order of their registration (provided,
    as for any fan-out, that the error can be classified and no listener
    throws or touches the registry). *)
Theorem listeners_notified_in_registration_order
    (isCancel : value -> bool)
    (body : IErrorListener -> value -> TErrorType -> behaviour)
    (fuel : nat) (ls listeners : list IErrorListener)
    (error : value) (errorType : TErrorType) :
  Http.errorTypeOf isCancel error = Normal errorType ->
  Forall (quiet body) ls ->
  Forall (quiet body) listeners ->
  length ls + length listeners < fuel ->
  (Http.onError isCancel body fuel (register_all listeners ls).1 error)
  = Some (ls ++ listeners,
          ((fun l => Call l error errorType) <$> ls)
            ++ ((fun l => Call l error errorType) <$> listeners),
          Normal ()).
Proof.
  intros Hty Hq1 Hq2 Hfuel. rewrite register_all_eq. simpl.
  rewrite (onError_quiet isCancel body fuel (ls ++ listeners) error errorType);
    [by rewrite fmap_app|done|by apply Forall_app|rewrite length_app; lia].
Qed.

Lemma listeners_notified_in_registration_order_witness :
  Http.errorTypeOf Axios.isCancel error_404 = Normal errorTypes.response ∧
  Forall (quiet silent) [4] ∧
  Forall (quiet silent) [7; 5] ∧
  length [4] + length [7; 5] < 4 ∧
  Http.onError Axios.isCancel silent 4 (register_all [7; 5] [4]).1 error_404
  = Some ([4; 7; 5],
          [Call 4 error_404 errorTypes.response;
           Call 7 error_404 errorTypes.response;
           Call 5 error_404 errorTypes.response],
          Normal ()).
Proof.
  assert (Hq1 : Forall (quiet silent) [4]) by (repeat constructor).
  assert (Hq2 : Forall (quiet silent) [7; 5]) by (repeat constructor).
  split; [reflexivity|]. split; [exact Hq1|]. split; [exact Hq2|].
  split; [simpl; lia|].
  apply (listeners_notified_in_registration_order Axios.isCancel silent 4
           [4] [7; 5] error_404 errorTypes.response);
    [reflexivity|exact Hq1|exact Hq2|simpl; lia].
Defined.
